(** * pyattck: the [Attck] facade (src/pyattck/attck.py)

    A shallow embedding of the class [Attck]: its class-level document
    attributes, the per-object collection caches, the constructor, [update],
    [__load_data] and the six collection properties, followed by the
    properties of the specification that concern them. *)

From Stdlib Require Import ZArith Ascii String.
From stdpp Require Import base option list gmap strings.

Local Open Scope string_scope.
Local Open Scope list_scope.
Set Warnings "-register-all".

(** ** Python values and the few primitives the class relies on *)

Module Py.

(** A parsed JSON document as [json.load] produces it.  A dict is the list of
    its items in insertion order (keys are distinct in a parsed document, and
    a key is looked up from the front).  Numbers are integers here; no
    operation of the class looks at a number beyond its truth value. *)
Inductive json : Type :=
| JNull
| JBool (b : bool)
| JNum (z : Z)
| JStr (s : string)
| JArr (elems : list json)
| JObj (items : list (string * json)).

(** The exceptions that can leave a method of the class.  [ProviderError] is
    whatever the dataset provider raises; [DeadReference] is not a Python
    exception: it is the answer of the model when an operation is asked of an
    address that holds no object. *)
Inductive exn : Type :=
| KeyError (key : string)
| TypeError (msg : string)
| ProviderError (msg : string)
| DeadReference.

(** [bool(v)]: None, False, 0, the empty string, list and dict are false. *)
Definition truthy (v : json) : bool :=
  match v with
  | JNull => false
  | JBool b => b
  | JNum z => negb (Z.eqb z 0)
  | JStr s => negb (String.eqb s "")
  | JArr l => match l with [] => false | _ => true end
  | JObj l => match l with [] => false | _ => true end
  end.

(** Truth value of an optional string argument ([None] or a [str]). *)
Definition truthy_arg (a : option string) : bool :=
  match a with
  | None => false
  | Some s => negb (String.eqb s "")
  end.

Fixpoint dict_get (key : string) (items : list (string * json)) : option json :=
  match items with
  | [] => None
  | (k, v) :: rest => if String.eqb k key then Some v else dict_get key rest
  end.

(** [v[key]] for a string key. *)
Definition subscript (v : json) (key : string) : exn + json :=
  match v with
  | JObj items =>
      match dict_get key items with
      | Some x => inr x
      | None => inl (KeyError key)
      end
  | JArr _ => inl (TypeError "list indices must be integers or slices, not str")
  | JStr _ => inl (TypeError "string indices must be integers")
  | _ => inl (TypeError "object is not subscriptable")
  end.

(** The elements a [for] loop over [v] visits: the elements of a list, the
    keys of a dict, the characters of a string. *)
Definition iterate (v : json) : exn + list json :=
  match v with
  | JArr l => inr l
  | JObj items => inr (map (fun kv => JStr (fst kv)) items)
  | JStr s => inr (map (fun c => JStr (String c EmptyString)) (list_ascii_of_string s))
  | _ => inl (TypeError "object is not iterable")
  end.

(** [v == s] for a string literal [s]. *)
Definition eq_str (v : json) (s : string) : bool :=
  match v with
  | JStr t => String.eqb t s
  | _ => false
  end.

(** Private name mangling: inside the body of class [cls] an identifier that
    starts with two underscores and does not end with two underscores is
    rewritten to [_cls] followed by the identifier, the leading underscores
    of the class name removed (a class name made of underscores only leaves
    the identifier as it is). *)
Fixpoint lstrip_underscores (s : string) : string :=
  match s with
  | String "_" rest => lstrip_underscores rest
  | _ => s
  end.

Fixpoint ends_with_dunder (s : string) : bool :=
  match s with
  | EmptyString => false
  | String "_" (String "_" EmptyString) => true
  | String _ rest => ends_with_dunder rest
  end.

Definition starts_with_dunder (s : string) : bool :=
  match s with
  | String "_" (String "_" _) => true
  | _ => false
  end.

Definition mangle (cls name : string) : string :=
  if starts_with_dunder name && negb (ends_with_dunder name) then
    match lstrip_underscores cls with
    | EmptyString => name
    | c => "_" ++ c ++ name
    end
  else name.

End Py.
Import Py.

(** ** The objects of the program *)

(** The six kinds of entity and the [type] tag each property compares with. *)
Inductive Kind : Type :=
| Tactic | Technique | Mitigation | Actor | Tool | Malware.

Global Instance Kind_eq_dec : EqDecision Kind.
Proof. solve_decision. Defined.

Definition type_tag (k : Kind) : string :=
  match k with
  | Actor => "intrusion-set"
  | Tactic => "x-mitre-tactic"
  | Mitigation => "course-of-action"
  | Tool => "tool"
  | Malware => "malware"
  | Technique => "attack-pattern"
  end.

(** Modelled from the spec: the entity classes [AttckActor], [AttckTactic],
    [AttckMitigation], [AttckTools], [AttckMalware] and [AttckTechnique]
    (pyattck/enterprise/) are not part of the sources at hand.  An entity is
    a read-only view over exactly one raw node, tagged with its kind: the
    object keeps the document it was given as [attck_obj] and the items of
    the node it was given as keyword arguments.  [oid] is the identity of
    the Python object. *)
Record TypedEntity : Type := mkEntity {
  oid : nat;
  kind : Kind;
  attck_obj : json;
  node_items : list (string * json)
}.

Definition raw_node (e : TypedEntity) : json := JObj (node_items e).

(** A Python list object holding entities: its identity and its elements. *)
Record PyList : Type := mkPyList {
  list_oid : nat;
  elements : list TypedEntity
}.

(** [AttckDatasets] (pyattck/datasets.py, not part of the sources at hand) is
    used through two methods only.  [mitre] receives [force] and, when the
    caller passes it, [subtechniques]; [generated_attck_data] receives
    [force].  Either returns a parsed document or raises. *)
Record AttckDatasets : Type := mkDatasets {
  mitre : bool -> option bool -> exn + json;
  generated_attck_data : bool -> exn + json
}.

(** What the class does to its collaborators, in order. *)
Inductive Event : Type :=
| CallMitre (force : bool) (subtechniques : option bool)
| CallGenerated (force : bool)
| CallConfigurationSet (enterprise_attck_json_path enterprise_attck_dataset_path : option string)
| CallConfigurationSetDefaults
| Warn (k : Kind).

(** An [Attck] object: the public [subtechniques] attribute, the private
    [__datasets] and the six private collection attributes, which read as
    the class attribute [None] until the object assigns its own. *)
Record Instance : Type := mkInstance {
  subtechniques : bool;
  datasets : AttckDatasets;
  tactics_attr : option PyList;
  techniques_attr : option PyList;
  mitigations_attr : option PyList;
  actors_attr : option PyList;
  tools_attr : option PyList;
  malwares_attr : option PyList
}.

Definition get_attr (k : Kind) (o : Instance) : option PyList :=
  match k with
  | Tactic => tactics_attr o
  | Technique => techniques_attr o
  | Mitigation => mitigations_attr o
  | Actor => actors_attr o
  | Tool => tools_attr o
  | Malware => malwares_attr o
  end.

Definition set_attr (k : Kind) (v : option PyList) (o : Instance) : Instance :=
  match k with
  | Tactic => mkInstance (subtechniques o) (datasets o) v (techniques_attr o)
                (mitigations_attr o) (actors_attr o) (tools_attr o) (malwares_attr o)
  | Technique => mkInstance (subtechniques o) (datasets o) (tactics_attr o) v
                (mitigations_attr o) (actors_attr o) (tools_attr o) (malwares_attr o)
  | Mitigation => mkInstance (subtechniques o) (datasets o) (tactics_attr o)
                (techniques_attr o) v (actors_attr o) (tools_attr o) (malwares_attr o)
  | Actor => mkInstance (subtechniques o) (datasets o) (tactics_attr o)
                (techniques_attr o) (mitigations_attr o) v (tools_attr o) (malwares_attr o)
  | Tool => mkInstance (subtechniques o) (datasets o) (tactics_attr o)
                (techniques_attr o) (mitigations_attr o) (actors_attr o) v (malwares_attr o)
  | Malware => mkInstance (subtechniques o) (datasets o) (tactics_attr o)
                (techniques_attr o) (mitigations_attr o) (actors_attr o) (tools_attr o) v
  end.

(** The state of the process: the class attributes of [Attck]
    ([_Attck__ENTERPRISE_ATTCK_JSON], [_Attck__ENTERPRISE_GENERATED_DATA_JSON];
    [JNull] is [None]), the attributes of the class [Configuration], the
    [Attck] objects by address, the next free object identity and the events
    so far. *)
Record World : Type := mkWorld {
  ENTERPRISE_ATTCK_JSON : json;
  ENTERPRISE_GENERATED_DATA_JSON : json;
  Configuration_attrs : gmap string string;
  objects : list Instance;
  next_oid : nat;
  events : list Event
}.

Definition with_attck_json (d : json) (w : World) : World :=
  mkWorld d (ENTERPRISE_GENERATED_DATA_JSON w) (Configuration_attrs w)
          (objects w) (next_oid w) (events w).

Definition with_generated_json (d : json) (w : World) : World :=
  mkWorld (ENTERPRISE_ATTCK_JSON w) d (Configuration_attrs w)
          (objects w) (next_oid w) (events w).

Definition with_configuration (c : gmap string string) (w : World) : World :=
  mkWorld (ENTERPRISE_ATTCK_JSON w) (ENTERPRISE_GENERATED_DATA_JSON w) c
          (objects w) (next_oid w) (events w).

Definition with_objects (os : list Instance) (w : World) : World :=
  mkWorld (ENTERPRISE_ATTCK_JSON w) (ENTERPRISE_GENERATED_DATA_JSON w)
          (Configuration_attrs w) os (next_oid w) (events w).

Definition with_next_oid (n : nat) (w : World) : World :=
  mkWorld (ENTERPRISE_ATTCK_JSON w) (ENTERPRISE_GENERATED_DATA_JSON w)
          (Configuration_attrs w) (objects w) n (events w).

Definition with_events (ev : list Event) (w : World) : World :=
  mkWorld (ENTERPRISE_ATTCK_JSON w) (ENTERPRISE_GENERATED_DATA_JSON w)
          (Configuration_attrs w) (objects w) (next_oid w) ev.

(** ** Computations: state plus exceptions

    A method takes the state of the process and gives back a value or an
    exception together with the state it leaves; what was done before an
    exception stays done. *)
Definition M (A : Type) : Type := World -> (exn + A) * World.

Definition ret {A} (a : A) : M A := fun w => (inr a, w).
Definition raise {A} (e : exn) : M A := fun w => (inl e, w).
Definition bind {A B} (m : M A) (f : A -> M B) : M B :=
  fun w =>
    match m w with
    | (inl e, w') => (inl e, w')
    | (inr a, w') => f a w'
    end.

Notation "'let*' x ':=' m 'in' k" := (bind m (fun x => k))
  (at level 10, x pattern, m at level 100, k at level 200).
Notation "m ';;' k" := (bind m (fun _ => k))
  (at level 100, k at level 200, right associativity).

Definition lift {A} (r : exn + A) : M A :=
  match r with
  | inl e => raise e
  | inr a => ret a
  end.

Definition get_world : M World := fun w => (inr w, w).
Definition modify (f : World -> World) : M unit := fun w => (inr tt, f w).
Definition emit (e : Event) : M unit := modify (fun w => with_events (events w ++ [e]) w).
Definition when (b : bool) (m : M unit) : M unit := if b then m else ret tt.

(** A fresh object identity. *)
Definition alloc : M nat :=
  fun w => (inr (next_oid w), with_next_oid (S (next_oid w)) w).

(** Reading and writing the object at address [self]. *)
Definition read_self (self : nat) : M Instance :=
  fun w =>
    match objects w !! self with
    | Some o => (inr o, w)
    | None => (inl DeadReference, w)
    end.

Definition write_self (self : nat) (f : Instance -> Instance) : M unit :=
  let* o := read_self self in
  modify (fun w => with_objects (<[self := f o]> (objects w)) w).

(** [for x in xs: body(x)], left at the first exception. *)
Fixpoint for_each {A} (xs : list A) (body : A -> M unit) : M unit :=
  match xs with
  | [] => ret tt
  | x :: rest => body x ;; for_each rest body
  end.

(** ** The class [Attck] *)

(** [Attck.__load_data(self, force=False)]. *)
Definition __load_data (self : nat) (force : bool) : M unit :=
  let* w := get_world in
  when (negb (truthy (ENTERPRISE_ATTCK_JSON w)))
    (let* o := read_self self in
     if subtechniques o then
       emit (CallMitre force (Some true)) ;;
       let* d := lift (mitre (datasets o) force (Some true)) in
       modify (with_attck_json d)
     else
       emit (CallMitre force None) ;;
       let* d := lift (mitre (datasets o) force None) in
       modify (with_attck_json d)) ;;
  let* w := get_world in
  when (negb (truthy (ENTERPRISE_GENERATED_DATA_JSON w)))
    (let* o := read_self self in
     emit (CallGenerated force) ;;
     let* d := lift (generated_attck_data (datasets o) force) in
     modify (with_generated_json d)).

(** [Attck.update(self)]. *)
Definition update (self : nat) : M unit :=
  __load_data self true.

Definition set_subtechniques (b : bool) (o : Instance) : Instance :=
  mkInstance b (datasets o) (tactics_attr o) (techniques_attr o)
             (mitigations_attr o) (actors_attr o) (tools_attr o) (malwares_attr o).

Definition set_datasets (ds : AttckDatasets) (o : Instance) : Instance :=
  mkInstance (subtechniques o) ds (tactics_attr o) (techniques_attr o)
             (mitigations_attr o) (actors_attr o) (tools_attr o) (malwares_attr o).

(** The arguments of the constructor. *)
Record InitArgs : Type := mkArgs {
  arg_subtechniques : bool;
  arg_attck_json : option string;
  arg_dataset_json : option string;
  arg_config_path : option string;
  arg_force : bool
}.

(** [Configuration.__CONFIG_FILE = config_path], written in the body of
    [Attck]: the attribute that is set on [Configuration] is the mangled one. *)
Definition assign_CONFIG_FILE (config_path : string) (attrs : gmap string string)
  : gmap string string :=
  <[mangle "Attck" "__CONFIG_FILE" := config_path]> attrs.

(** [Attck.__init__].  [ds] is the object [AttckDatasets()] returns.  The two
    calls of [Configuration().set] are recorded as events: the class
    [Configuration] is not part of the sources at hand. *)
Definition __init__ (self : nat) (a : InitArgs) (ds : AttckDatasets) : M unit :=
  write_self self (set_subtechniques (arg_subtechniques a)) ;;
  match arg_config_path a with
  | Some p =>
      when (truthy_arg (Some p))
        (modify (fun w => with_configuration (assign_CONFIG_FILE p (Configuration_attrs w)) w))
  | None => ret tt
  end ;;
  when (truthy_arg (arg_attck_json a) || truthy_arg (arg_dataset_json a))
    (emit (CallConfigurationSet (arg_attck_json a) (arg_dataset_json a))) ;;
  when (arg_force a) (emit CallConfigurationSetDefaults) ;;
  write_self self (set_datasets ds) ;;
  __load_data self false.

(** The object [__init__] receives: no collection attribute of its own yet.
    Its two plain attributes are assigned by [__init__] before they are
    read. *)
Definition blank (ds : AttckDatasets) : Instance :=
  mkInstance false ds None None None None None None.

(** The call [Attck(...)]: a new object is made and initialised, and its
    address is the value of the call.  When [__init__] raises, no reference to
    the object exists, and it is dropped. *)
Definition Attck (a : InitArgs) (ds : AttckDatasets) : M nat :=
  fun w =>
    let self := length (objects w) in
    match __init__ self a ds (with_objects (objects w ++ [blank ds]) w) with
    | (inr _, w') => (inr self, w')
    | (inl e, w') => (inl e, with_objects (take self (objects w')) w')
    end.

(** [AttckX(attck_obj=doc, **group)] for the class of kind [k]: [group] has
    to be a mapping, and a key [attck_obj] in it clashes with the keyword
    given explicitly. *)
Definition construct (k : Kind) (doc group : json) : M TypedEntity :=
  match group with
  | JObj items =>
      match dict_get "attck_obj" items with
      | Some _ => raise (TypeError "got multiple values for keyword argument 'attck_obj'")
      | None => let* n := alloc in ret (mkEntity n k doc items)
      end
  | _ => raise (TypeError "argument after ** must be a mapping")
  end.

(** The list a collection attribute holds. *)
Definition read_list (k : Kind) (self : nat) : M PyList :=
  let* o := read_self self in
  match get_attr k o with
  | Some l => ret l
  | None => raise DeadReference
  end.

(** [self.__xs.append(e)]. *)
Definition append (k : Kind) (self : nat) (e : TypedEntity) : M unit :=
  let* l := read_list k self in
  write_self self (set_attr k (Some (mkPyList (list_oid l) (elements l ++ [e])))).

(** The six properties [tactics], [techniques], [mitigations], [actors],
    [tools] and [malwares] are one text up to the attribute, the tag and the
    class: warn, fill the attribute if the object has none yet, return it. *)
Definition collection (k : Kind) (self : nat) : M PyList :=
  emit (Warn k) ;;
  let* o := read_self self in
  when (bool_decide (get_attr k o = None))
    (let* n := alloc in
     write_self self (set_attr k (Some (mkPyList n []))) ;;
     let* w := get_world in
     let* objs := lift (subscript (ENTERPRISE_ATTCK_JSON w) "objects") in
     let* xs := lift (iterate objs) in
     for_each xs (fun group =>
       let* t := lift (subscript group "type") in
       if eq_str t (type_tag k) then
         let* w := get_world in
         let* e := construct k (ENTERPRISE_ATTCK_JSON w) group in
         append k self e
       else ret tt)) ;;
  read_list k self.

Definition actors : nat -> M PyList := collection Actor.
Definition tactics : nat -> M PyList := collection Tactic.
Definition mitigations : nat -> M PyList := collection Mitigation.
Definition tools : nat -> M PyList := collection Tool.
Definition malwares : nat -> M PyList := collection Malware.
Definition techniques : nat -> M PyList := collection Technique.

(** ** Runs of the process *)

Inductive Op : Type :=
| New (a : InitArgs) (ds : AttckDatasets)
| Update (self : nat)
| Get (k : Kind) (self : nat).

Definition step (w : World) (op : Op) : World :=
  match op with
  | New a ds => snd (Attck a ds w)
  | Update self => snd (update self w)
  | Get k self => snd (collection k self w)
  end.

Definition run (ops : list Op) (w : World) : World := fold_left step ops w.

(** The process before anything of [Attck] has run; [cfg] is what the class
    [Configuration] holds on its own. *)
Definition initial (cfg : gmap string string) : World :=
  mkWorld JNull JNull cfg [] 0 [].

Definition reachable (w : World) : Prop :=
  exists cfg ops, w = run ops (initial cfg).

(** ** The same methods without the heap

    These restate what the methods compute once the object at [self] is
    known; the lemmas [load_data_eq], [Attck_eq] and [collection_eq] below
    prove that they are what the methods above do. *)

(** The first half of [__load_data]: the graph document. *)
Definition fetch_graph (st : bool) (ds : AttckDatasets) (force : bool) : M unit :=
  fun w =>
    if truthy (ENTERPRISE_ATTCK_JSON w) then (inr tt, w)
    else
      let arg := if st then Some true else None in
      let w1 := with_events (events w ++ [CallMitre force arg]) w in
      match mitre ds force arg with
      | inl e => (inl e, w1)
      | inr d => (inr tt, with_attck_json d w1)
      end.

(** The second half: the generated data. *)
Definition fetch_generated (ds : AttckDatasets) (force : bool) : M unit :=
  fun w =>
    if truthy (ENTERPRISE_GENERATED_DATA_JSON w) then (inr tt, w)
    else
      let w1 := with_events (events w ++ [CallGenerated force]) w in
      match generated_attck_data ds force with
      | inl e => (inl e, w1)
      | inr d => (inr tt, with_generated_json d w1)
      end.

Definition load (st : bool) (ds : AttckDatasets) (force : bool) : M unit :=
  fetch_graph st ds force ;; fetch_generated ds force.

(** The calls of [Configuration().set] the constructor makes. *)
Definition config_events (a : InitArgs) : list Event :=
  (if truthy_arg (arg_attck_json a) || truthy_arg (arg_dataset_json a)
   then [CallConfigurationSet (arg_attck_json a) (arg_dataset_json a)] else [])
  ++ (if arg_force a then [CallConfigurationSetDefaults] else []).

(** The attributes of [Configuration] after the constructor. *)
Definition config_after (a : InitArgs) (attrs : gmap string string) : gmap string string :=
  match arg_config_path a with
  | Some p => if truthy_arg (Some p) then assign_CONFIG_FILE p attrs else attrs
  | None => attrs
  end.

(** The object as [__init__] leaves it. *)
Definition fresh_object (a : InitArgs) (ds : AttckDatasets) : Instance :=
  mkInstance (arg_subtechniques a) ds None None None None None None.

(** The state in which the constructor calls [__load_data]. *)
Definition begun (a : InitArgs) (ds : AttckDatasets) (w : World) : World :=
  mkWorld (ENTERPRISE_ATTCK_JSON w) (ENTERPRISE_GENERATED_DATA_JSON w)
          (config_after a (Configuration_attrs w))
          (objects w ++ [fresh_object a ds]) (next_oid w)
          (events w ++ config_events a).

(** The loop of a collection property over the nodes [xs]: the exception
    that ends it, if any, the next free identity, and the list so far. *)
Fixpoint scan (k : Kind) (doc : json) (xs : list json) (n : nat) (acc : list TypedEntity)
  : option exn * nat * list TypedEntity :=
  match xs with
  | [] => (None, n, acc)
  | group :: rest =>
      match subscript group "type" with
      | inl e => (Some e, n, acc)
      | inr t =>
          if eq_str t (type_tag k) then
            match group with
            | JObj items =>
                match dict_get "attck_obj" items with
                | Some _ =>
                    (Some (TypeError "got multiple values for keyword argument 'attck_obj'"), n, acc)
                | None => scan k doc rest (S n) (acc ++ [mkEntity n k doc items])
                end
            | _ => (Some (TypeError "argument after ** must be a mapping"), n, acc)
            end
          else scan k doc rest n acc
      end
  end.

(** The same from the subscript on. *)
Definition fill (k : Kind) (doc : json) (n : nat) : option exn * nat * list TypedEntity :=
  match subscript doc "objects" with
  | inl e => (Some e, n, [])
  | inr objs =>
      match iterate objs with
      | inl e => (Some e, n, [])
      | inr xs => scan k doc xs n []
      end
  end.

(** The state with the list [l] as the attribute of kind [k] of the object
    at [self] (which was [o]), and [n] the next free identity. *)
Definition put (o : Instance) (k : Kind) (self : nat) (l : PyList) (n : nat) (w : World) : World :=
  with_next_oid n (with_objects (<[self := set_attr k (Some l) o]> (objects w)) w).

Definition warned (k : Kind) (w : World) : World :=
  with_events (events w ++ [Warn k]) w.

(** ** What the claims speak of *)

(** The requests made to the dataset provider, among the events. *)
Definition is_fetch (e : Event) : bool :=
  match e with
  | CallMitre _ _ | CallGenerated _ => true
  | _ => false
  end.

Definition fetches (ev : list Event) : list Event := List.filter is_fetch ev.

(** The [force] flag of a request. *)
Definition forced (e : Event) : bool :=
  match e with
  | CallMitre f _ | CallGenerated f => f
  | _ => false
  end.

(** Both class-level documents are there, as [__load_data] tests it. *)
Definition loaded (w : World) : Prop :=
  truthy (ENTERPRISE_ATTCK_JSON w) = true /\
  truthy (ENTERPRISE_GENERATED_DATA_JSON w) = true.

(** The node collection of a document, in document order. *)
Definition nodes (doc : json) : list json :=
  match subscript doc "objects" with
  | inr objs => match iterate objs with inr xs => xs | inl _ => [] end
  | inl _ => []
  end.

(** The declared type and the internal id of a raw node. *)
Definition declared_type (g : json) : option string :=
  match subscript g "type" with
  | inr (JStr s) => Some s
  | _ => None
  end.

Definition internal_id_of (g : json) : option string :=
  match subscript g "id" with
  | inr (JStr s) => Some s
  | _ => None
  end.

Definition internal_id (e : TypedEntity) : option string := internal_id_of (raw_node e).

Definition has_type (tag : string) (g : json) : bool :=
  bool_decide (declared_type g = Some tag).

(** The nodes of a document whose declared type is the tag of [k]. *)
Definition nodes_of_type (k : Kind) (doc : json) : list json :=
  List.filter (has_type (type_tag k)) (nodes doc).

Definition has_id (i : string) (g : json) : bool :=
  bool_decide (internal_id_of g = Some i).

(** Modelled from the spec: [NodeIndex.nodeById] is not part of the sources
    at hand.  The index maps an internal id to a raw node; of several nodes
    with one id the last one written wins. *)
Definition nodeById (doc : json) (i : string) : option json :=
  fold_left (fun found g => if has_id i g then Some g else found) (nodes doc) None.

(** Looking the id of [e] up in the loaded document gives a node of the kind
    of [e]. *)
Definition round_trip (w : World) (e : TypedEntity) : Prop :=
  exists i g, internal_id e = Some i /\
              nodeById (ENTERPRISE_ATTCK_JSON w) i = Some g /\
              declared_type g = Some (type_tag (kind e)).

(** Every node of [doc] that carries the id [i] has the declared type [tag]. *)
Definition id_has_one_type (doc : json) (i tag : string) : bool :=
  forallb (fun g => implb (has_id i g) (has_type tag g)) (nodes doc).

(** A raw node as the data model has it: a mapping with a [type], and without
    a key that would clash with the [attck_obj] keyword. *)
Definition wf_node (g : json) : bool :=
  match g with
  | JObj items =>
      match dict_get "type" items, dict_get "attck_obj" items with
      | Some _, None => true
      | _, _ => false
      end
  | _ => false
  end.

(** A graph document: a mapping whose [objects] is a list of raw nodes. *)
Definition wf_document (doc : json) : bool :=
  match doc with
  | JObj items =>
      match dict_get "objects" items with
      | Some (JArr xs) => forallb wf_node xs
      | _ => false
      end
  | _ => false
  end.

(** A provider whose graph documents are all of that form (it may raise). *)
Definition wf_answer (r : exn + json) : bool :=
  match r with
  | inl _ => true
  | inr d => wf_document d
  end.

Definition wf_datasets (ds : AttckDatasets) : bool :=
  wf_answer (mitre ds false None) && wf_answer (mitre ds false (Some true)) &&
  wf_answer (mitre ds true None) && wf_answer (mitre ds true (Some true)).

Definition wf_op (op : Op) : bool :=
  match op with
  | New _ ds => wf_datasets ds
  | _ => true
  end.

(** The entities built for the nodes [its], with identities from [n] on. *)
Fixpoint views (k : Kind) (doc : json) (n : nat) (its : list (list (string * json)))
  : list TypedEntity :=
  match its with
  | [] => []
  | it :: rest => mkEntity n k doc it :: views k doc (S n) rest
  end.

Definition items_of (g : json) : list (string * json) :=
  match g with
  | JObj items => items
  | _ => []
  end.

(** ** Framing: what a computation leaves alone

    [keeps R m]: whatever [m] answers, the state it leaves is related by [R]
    to the state it started from. *)
Definition keeps (R : World -> World -> Prop) {A} (m : M A) : Prop :=
  forall w, R w (snd (m w)).

(** Nothing but the objects, the identities and the warnings changed. *)
Definition quiet (w w' : World) : Prop :=
  ENTERPRISE_ATTCK_JSON w' = ENTERPRISE_ATTCK_JSON w /\
  ENTERPRISE_GENERATED_DATA_JSON w' = ENTERPRISE_GENERATED_DATA_JSON w /\
  Configuration_attrs w' = Configuration_attrs w /\
  fetches (events w') = fetches (events w) /\
  length (objects w') = length (objects w).

(** A document that is there stays; the objects that are there stay objects;
    the configuration differs at most at the attribute the constructor
    assigns. *)
Definition settled (w w' : World) : Prop :=
  (truthy (ENTERPRISE_ATTCK_JSON w) = true ->
   ENTERPRISE_ATTCK_JSON w' = ENTERPRISE_ATTCK_JSON w) /\
  (truthy (ENTERPRISE_GENERATED_DATA_JSON w) = true ->
   ENTERPRISE_GENERATED_DATA_JSON w' = ENTERPRISE_GENERATED_DATA_JSON w).

(** ** Invariants of the runs *)

(** An entity of kind [k] held by an object: it views a node of the loaded
    document that declares the tag of [k], and it is older than the next
    identity. *)
Definition entity_ok (w : World) (k : Kind) (e : TypedEntity) : Prop :=
  kind e = k /\
  attck_obj e = ENTERPRISE_ATTCK_JSON w /\
  declared_type (raw_node e) = Some (type_tag k) /\
  raw_node e ∈ nodes (ENTERPRISE_ATTCK_JSON w) /\
  oid e < next_oid w.

Definition sound (w : World) : Prop :=
  forall self o k l e,
    objects w !! self = Some o -> get_attr k o = Some l -> e ∈ elements l ->
    entity_ok w k e.

(** With providers that answer graph documents only: as soon as there is an
    object the document is a graph document, and a list an object holds has
    one entity for each node of its kind, in document order. *)
Definition complete (w : World) : Prop :=
  (ENTERPRISE_ATTCK_JSON w = JNull /\ objects w = [] \/
   wf_document (ENTERPRISE_ATTCK_JSON w) = true) /\
  forall self o k l,
    objects w !! self = Some o -> get_attr k o = Some l ->
    exists n, elements l =
              views k (ENTERPRISE_ATTCK_JSON w) n
                    (map items_of (nodes_of_type k (ENTERPRISE_ATTCK_JSON w))).

(** The object at [self] holds the list [l] for the kind [k]. *)
Definition holds (k : Kind) (self : nat) (l : PyList) (w : World) : Prop :=
  exists o, objects w !! self = Some o /\ get_attr k o = Some l.

(** The requests [__load_data] makes from the state [w], in order. *)
Definition load_requests (st : bool) (ds : AttckDatasets) (force : bool) (w : World)
  : list Event :=
  if truthy (ENTERPRISE_ATTCK_JSON w) then
    if truthy (ENTERPRISE_GENERATED_DATA_JSON w) then [] else [CallGenerated force]
  else
    CallMitre force (if st then Some true else None)
    :: match mitre ds force (if st then Some true else None) with
       | inl _ => []
       | inr _ =>
           if truthy (ENTERPRISE_GENERATED_DATA_JSON w) then [] else [CallGenerated force]
       end.

(** The documents and the requests are what they were. *)
Definition still (w w' : World) : Prop :=
  ENTERPRISE_ATTCK_JSON w' = ENTERPRISE_ATTCK_JSON w /\
  ENTERPRISE_GENERATED_DATA_JSON w' = ENTERPRISE_GENERATED_DATA_JSON w /\
  fetches (events w') = fetches (events w).

(** ** The claims that fail, as written *)

(** update(): after it the graph document is what a fetch with [force] set
    answers. *)
Definition update_reloads (self : nat) (w : World) : Prop :=
  forall o, objects w !! self = Some o ->
    mitre (datasets o) true (if subtechniques o then Some true else None)
    = inr (ENTERPRISE_ATTCK_JSON (snd (update self w))).

(** Every access builds its entities: the list and the entities an access
    from [w] answers did not exist in [w]. *)
Definition built_afresh (w : World) (l : PyList) : Prop :=
  next_oid w <= list_oid l /\ Forall (fun e => next_oid w <= oid e) (elements l).

(** The constructor with [force] set asks the provider for both documents
    with the force flag set. *)
Definition reloads_with_force (w : World) (a : InitArgs) (ds : AttckDatasets) : Prop :=
  (exists st, In (CallMitre true st) (events (snd (Attck a ds w)))) /\
  In (CallGenerated true) (events (snd (Attck a ds w))).

(** The constructor with [subtechniques] set asks the provider for the graph
    document with sub-techniques. *)
Definition fetches_subtechniques (w : World) (a : InitArgs) (ds : AttckDatasets) : Prop :=
  exists f, In (CallMitre f (Some true)) (events (snd (Attck a ds w))).

(** Loading fails at once. *)
Definition fails_at_load (w : World) (a : InitArgs) (ds : AttckDatasets) : Prop :=
  exists e, fst (Attck a ds w) = inl e.

(** ** Sample data *)

Definition node (ty id : string) : json :=
  JObj [("type", JStr ty); ("id", JStr id)].

Definition bundle (xs : list json) : json :=
  JObj [("type", JStr "bundle"); ("objects", JArr xs)].

Definition sample_nodes : list json :=
  [ node "attack-pattern" "attack-pattern--1";
    node "malware" "malware--1";
    node "x-mitre-tactic" "x-mitre-tactic--1";
    node "attack-pattern" "attack-pattern--2";
    node "intrusion-set" "intrusion-set--1";
    node "course-of-action" "course-of-action--1";
    node "tool" "tool--1";
    node "relationship" "relationship--1" ].

(** The graph document without sub-techniques, with them, and as a forced
    download answers it (one technique more). *)
Definition doc_plain : json := bundle sample_nodes.
Definition doc_sub : json :=
  bundle (sample_nodes ++ [node "attack-pattern" "attack-pattern--2.001"]).
Definition doc_newer : json :=
  bundle (sample_nodes ++ [node "attack-pattern" "attack-pattern--3"]).

Definition doc_generated : json := JObj [("techniques", JArr [])].
Definition doc_generated_newer : json :=
  JObj [("techniques", JArr [JObj [("technique_id", JStr "T1059")]])].

Definition sample_datasets : AttckDatasets :=
  mkDatasets
    (fun force st =>
       match st with
       | Some true => inr doc_sub
       | _ => if force then inr doc_newer else inr doc_plain
       end)
    (fun force => if force then inr doc_generated_newer else inr doc_generated).

(** A document without the [objects] collection, and a provider of it. *)
Definition doc_no_objects : json := JObj [("type", JStr "bundle")].
Definition datasets_no_objects : AttckDatasets :=
  mkDatasets (fun _ _ => inr doc_no_objects) (fun _ => inr doc_generated).

(** A document in which two nodes of different types carry one id. *)
Definition doc_duplicate_id : json :=
  bundle [node "attack-pattern" "x--1"; node "malware" "x--1"].
Definition datasets_duplicate_id : AttckDatasets :=
  mkDatasets (fun _ _ => inr doc_duplicate_id) (fun _ => inr doc_generated).

Definition default_args : InitArgs := mkArgs false None None None false.
Definition args_force : InitArgs := mkArgs false None None None true.
Definition args_subtechniques : InitArgs := mkArgs true None None None false.
Definition args_config : InitArgs :=
  mkArgs false None None (Some "/etc/pyattck/config.yml") false.

(** The process after [Attck()], and after a first look at the techniques. *)
Definition world_loaded : World :=
  run [New default_args sample_datasets] (initial ∅).
Definition world_seen : World :=
  run [New default_args sample_datasets; Get Technique 0] (initial ∅).
Definition world_no_objects : World :=
  run [New default_args datasets_no_objects] (initial ∅).
Definition world_duplicate_id : World :=
  run [New default_args datasets_duplicate_id] (initial ∅).

(** ** The [enterprise] property *)

(** Modelled from the spec: the class [Enterprise]
    (pyattck/enterprise/enterprise.py), the nested namespace that gives
    access to the same collections, is not part of the sources at hand.  The
    object is what the call makes of its argument: a new Python object that
    keeps the graph document it was given. *)
Record Enterprise : Type := mkEnterprise {
  enterprise_oid : nat;
  enterprise_json : json
}.

(** [Attck.enterprise]: [Enterprise(self.__ENTERPRISE_ATTCK_JSON)], the
    attribute read through the object from the class. *)
Definition enterprise (self : nat) : M Enterprise :=
  let* _ := read_self self in
  let* w := get_world in
  let* n := alloc in
  ret (mkEnterprise n (ENTERPRISE_ATTCK_JSON w)).

(** ** Identities *)

(** The identities of a list object and of the entities in it. *)
Definition oids (l : PyList) : list nat := list_oid l :: map oid (elements l).

(** Every list an object holds is older than the next identity. *)
Definition aged (w : World) : Prop :=
  forall self o k l,
    objects w !! self = Some o -> get_attr k o = Some l -> list_oid l < next_oid w.

(** Two lists held under different kinds or by different objects have no
    identity in common. *)
Definition apart (w : World) : Prop :=
  forall self1 k1 l1 self2 k2 l2,
    holds k1 self1 l1 w -> holds k2 self2 l2 w -> (self1, k1) <> (self2, k2) ->
    forall x y, x ∈ oids l1 -> y ∈ oids l2 -> x <> y.

(** ** More sample data *)

(** A provider that answers empty documents unless it is forced. *)
Definition datasets_late : AttckDatasets :=
  mkDatasets
    (fun force _ => if force then inr doc_plain else inr (JObj []))
    (fun force => if force then inr doc_generated else inr (JObj [])).

(** A provider whose generated data cannot be had, and one that is down. *)
Definition datasets_half : AttckDatasets :=
  mkDatasets (fun _ _ => inr doc_plain) (fun _ => inl (ProviderError "generated data")).
Definition datasets_down : AttckDatasets :=
  mkDatasets (fun _ _ => inl (ProviderError "mitre")) (fun _ => inl (ProviderError "generated data")).

(** A graph document whose third node has no [type]. *)
Definition doc_broken : json :=
  bundle [node "attack-pattern" "attack-pattern--1"; node "malware" "malware--1";
          JObj [("id", JStr "relationship--1")];
          node "attack-pattern" "attack-pattern--2"].
Definition datasets_broken : AttckDatasets :=
  mkDatasets (fun _ _ => inr doc_broken) (fun _ => inr doc_generated).

Definition args_paths : InitArgs :=
  mkArgs false (Some "/tmp/enterprise.json") None None true.

(** The process after [Attck()] with these providers. *)
Definition world_late : World := run [New default_args datasets_late] (initial ∅).
Definition world_broken : World := run [New default_args datasets_broken] (initial ∅).
Definition world_two : World :=
  run [New default_args sample_datasets; New args_subtechniques sample_datasets;
       Get Technique 0; Get Malware 0; Get Technique 1] (initial ∅).

(** A graph document whose [objects] is a mapping from id to node. *)
Definition doc_objects_mapping : json :=
  JObj [("objects", JObj [("attack-pattern--1", node "attack-pattern" "attack-pattern--1")])].
Definition datasets_objects_mapping : AttckDatasets :=
  mkDatasets (fun _ _ => inr doc_objects_mapping) (fun _ => inr doc_generated).
Definition world_objects_mapping : World :=
  run [New default_args datasets_objects_mapping] (initial ∅).

(** ** The six properties and their tags *)

(** The collection properties by name, each with its kind and with the
    literal its loop compares the [type] of a node with. *)
Definition properties : list (Kind * (nat -> M PyList) * string) :=
  [ (Tactic, tactics, "x-mitre-tactic");
    (Technique, techniques, "attack-pattern");
    (Mitigation, mitigations, "course-of-action");
    (Actor, actors, "intrusion-set");
    (Tool, tools, "tool");
    (Malware, malwares, "malware") ].



(** ** The methods, once the object is known *)

Section Frame.
Context (R : World -> World -> Prop) `{!PreOrder R}.

Lemma keeps_ret {A} (a : A) : keeps R (ret a).
Proof. intros w. simpl. reflexivity. Qed.

Lemma keeps_raise {A} (e : exn) : keeps R (@raise A e).
Proof. intros w. simpl. reflexivity. Qed.

Lemma keeps_lift {A} (r : exn + A) : keeps R (lift r).
Proof. destruct r; [apply keeps_raise | apply keeps_ret]. Qed.

Lemma keeps_get_world : keeps R get_world.
Proof. intros w. simpl. reflexivity. Qed.

Lemma keeps_read_self self : keeps R (read_self self).
Proof. intros w. unfold read_self. destruct (objects w !! self); simpl; reflexivity. Qed.

Lemma keeps_bind {A B} (m : M A) (f : A -> M B) :
  keeps R m -> (forall a, keeps R (f a)) -> keeps R (bind m f).
Proof.
  intros Hm Hf w. unfold bind. specialize (Hm w).
  destruct (m w) as [[e | a] w1]; simpl in *; [exact Hm |].
  etransitivity; [exact Hm | apply Hf].
Qed.

Lemma keeps_modify (f : World -> World) :
  (forall w, R w (f w)) -> keeps R (modify f).
Proof. intros H w. apply H. Qed.

Lemma keeps_when (b : bool) (m : M unit) : keeps R m -> keeps R (when b m).
Proof. destruct b; [auto | intros _; apply keeps_ret]. Qed.

Lemma keeps_for_each {A} (xs : list A) (body : A -> M unit) :
  (forall x, keeps R (body x)) -> keeps R (for_each xs body).
Proof.
  intros Hb. induction xs as [| x xs IH]; simpl.
  - apply keeps_ret.
  - apply keeps_bind; auto.
Qed.

Lemma keeps_write_self self (f : Instance -> Instance) :
  (forall w o, R w (with_objects (<[self := f o]> (objects w)) w)) ->
  keeps R (write_self self f).
Proof.
  intros H. unfold write_self. apply keeps_bind; [apply keeps_read_self |].
  intros o. apply keeps_modify. intros w. apply H.
Qed.

Lemma keeps_run_step (P : World -> Prop) :
  (forall w op, P w -> R w (step w op) /\ P (step w op)) ->
  forall ops w, P w -> R w (run ops w) /\ P (run ops w).
Proof.
  intros Hstep ops. induction ops as [| op ops IH]; intros w Hw; simpl.
  - split; [reflexivity | exact Hw].
  - destruct (Hstep w op Hw) as [H1 H2]. destruct (IH _ H2) as [H3 H4].
    split; [etransitivity; eassumption | exact H4].
Qed.
End Frame.

Global Instance quiet_preorder : PreOrder quiet.
Proof.
  split.
  - intros w. unfold quiet. tauto.
  - intros a b c (H1 & H2 & H3 & H4 & H5) (K1 & K2 & K3 & K4 & K5).
    unfold quiet. repeat split; congruence.
Qed.

Global Instance settled_preorder : PreOrder settled.
Proof.
  split.
  - intros w. unfold settled. tauto.
  - intros a b c [H1 H2] [K1 K2]. split; intros T.
    + rewrite K1; [auto | rewrite H1; auto].
    + rewrite K2; [auto | rewrite H2; auto].
Qed.

Ltac frame R :=
  repeat first
    [ simple apply (keeps_ret R) | simple apply (keeps_raise R)
    | simple apply (keeps_lift R)
    | simple apply (keeps_get_world R) | simple apply (keeps_read_self R)
    | simple apply (keeps_bind R); [| intros ?]
    | simple apply (keeps_when R)
    | simple apply (keeps_for_each R); intros ? ].

Lemma fetches_app (l1 l2 : list Event) : fetches (l1 ++ l2) = fetches l1 ++ fetches l2.
Proof. unfold fetches. apply List.filter_app. Qed.

Lemma get_set_attr_same k v o : get_attr k (set_attr k v o) = v.
Proof. destruct k; reflexivity. Qed.

Lemma get_set_attr_other k k' v o : k <> k' -> get_attr k' (set_attr k v o) = get_attr k' o.
Proof. destruct k, k'; intros H; try reflexivity; congruence. Qed.

Lemma set_set_attr k v v' o : set_attr k v (set_attr k v' o) = set_attr k v o.
Proof. destruct k; reflexivity. Qed.

Lemma read_self_at self w o :
  objects w !! self = Some o -> read_self self w = (inr o, w).
Proof. intros H. unfold read_self. by rewrite H. Qed.

Lemma write_self_at self f w o :
  objects w !! self = Some o ->
  write_self self f w = (inr tt, with_objects (<[self := f o]> (objects w)) w).
Proof. intros H. unfold write_self, bind. by rewrite (read_self_at _ _ _ H). Qed.

(** [__load_data] reads the object for its two plain attributes only. *)
Lemma load_data_eq self force w o :
  objects w !! self = Some o ->
  __load_data self force w = load (subtechniques o) (datasets o) force w.
Proof.
  intros Ho. unfold __load_data, load, fetch_graph, fetch_generated, bind, get_world, when.
  destruct (truthy (ENTERPRISE_ATTCK_JSON w)) eqn:Td; simpl.
  - destruct (truthy (ENTERPRISE_GENERATED_DATA_JSON w)) eqn:Tg; simpl; [done |].
    rewrite (read_self_at _ _ _ Ho). simpl.
    destruct (generated_attck_data (datasets o) force); reflexivity.
  - rewrite (read_self_at _ _ _ Ho).
    destruct (subtechniques o); simpl;
      (destruct (mitre (datasets o) force _) as [e | d]; simpl; [done |];
       destruct (truthy (ENTERPRISE_GENERATED_DATA_JSON w)) eqn:Tg; simpl; [done |];
       unfold read_self; simpl; rewrite Ho; simpl;
       destruct (generated_attck_data (datasets o) force); reflexivity).
Qed.

(** Once both documents are there, [__load_data] does nothing at all,
    whatever [force] is. *)
Lemma load_data_loaded self force w :
  loaded w -> __load_data self force w = (inr tt, w).
Proof.
  intros [Hd Hg]. unfold __load_data, bind, get_world. simpl.
  rewrite Hd. simpl. rewrite Hg. reflexivity.
Qed.

Lemma load_objects st ds force w :
  objects (snd (load st ds force w)) = objects w /\
  next_oid (snd (load st ds force w)) = next_oid w /\
  Configuration_attrs (snd (load st ds force w)) = Configuration_attrs w.
Proof.
  unfold load, fetch_graph, fetch_generated, bind.
  destruct (truthy (ENTERPRISE_ATTCK_JSON w)); simpl.
  - destruct (truthy (ENTERPRISE_GENERATED_DATA_JSON w)); simpl; [done |].
    destruct (generated_attck_data ds force); done.
  - destruct (mitre ds force _); simpl; [done |].
    destruct (truthy (ENTERPRISE_GENERATED_DATA_JSON w)); simpl; [done |].
    destruct (generated_attck_data ds force); done.
Qed.

Lemma load_settled st ds force : keeps settled (load st ds force).
Proof.
  intros w. unfold settled, load, fetch_graph, fetch_generated, bind.
  destruct (truthy (ENTERPRISE_ATTCK_JSON w)) eqn:Td; simpl.
  - destruct (truthy (ENTERPRISE_GENERATED_DATA_JSON w)) eqn:Tg; simpl; [done |].
    destruct (generated_attck_data ds force); done.
  - destruct (mitre ds force _); simpl; [done |].
    destruct (truthy (ENTERPRISE_GENERATED_DATA_JSON w)) eqn:Tg; simpl; [done |].
    destruct (generated_attck_data ds force); done.
Qed.

(** The constructor: prepare the object and the configuration, then load. *)
Lemma init_eq self a ds w o :
  objects w !! self = Some o ->
  __init__ self a ds w =
  __load_data self false
    (mkWorld (ENTERPRISE_ATTCK_JSON w) (ENTERPRISE_GENERATED_DATA_JSON w)
             (config_after a (Configuration_attrs w))
             (<[self := set_datasets ds (set_subtechniques (arg_subtechniques a) o)]> (objects w))
             (next_oid w) (events w ++ config_events a)).
Proof.
  intros Ho. unfold __init__. unfold bind at 1. rewrite (write_self_at _ _ _ _ Ho).
  pose proof (lookup_lt_Some _ _ _ Ho) as Hlt.
  assert (forall (w1 : World) x, objects w1 = <[self := x]> (objects w) ->
            write_self self (set_datasets ds) w1
            = (inr tt, with_objects (<[self := set_datasets ds x]> (objects w)) w1)) as Hw.
  { intros w1 x E. rewrite (write_self_at _ _ w1 x).
    - by rewrite E, list_insert_insert_eq.
    - rewrite E. by apply list_lookup_insert_eq. }
  unfold config_after, config_events.
  destruct (arg_config_path a) as [p |]; simpl;
    [destruct (negb (p =? "")%string); simpl |];
    unfold bind; simpl;
    destruct (truthy_arg (arg_attck_json a) || truthy_arg (arg_dataset_json a)); simpl;
    destruct (arg_force a); simpl;
    (erewrite Hw; [| reflexivity]); simpl;
    rewrite ?app_nil_r, <- ?app_assoc; simpl; try reflexivity.
  all: f_equal; by destruct w.
Qed.

Lemma Attck_eq a ds w :
  Attck a ds w =
  match load (arg_subtechniques a) ds false (begun a ds w) with
  | (inr _, w') => (inr (length (objects w)), w')
  | (inl e, w') => (inl e, with_objects (objects w) w')
  end.
Proof.
  unfold Attck.
  rewrite (init_eq _ _ _ _ (blank ds)); [| by apply list_lookup_middle].
  simpl. rewrite insert_app_r_alt, Nat.sub_diag; [| lia]. simpl.
  erewrite load_data_eq; [| simpl; by apply list_lookup_middle].
  simpl. change (mkWorld _ _ _ _ _ _) with (begun a ds w).
  pose proof (load_objects (arg_subtechniques a) ds false (begun a ds w)) as (Hobj & _ & _).
  destruct (load _ _ _ _) as [[e | u] w']; simpl in *; [| done].
  rewrite Hobj. by rewrite take_app_length.
Qed.

(** *** The collection properties *)

Lemma put_lookup o k self l n w :
  objects w !! self = Some o ->
  objects (put o k self l n w) !! self = Some (set_attr k (Some l) o).
Proof.
  intros Ho. simpl. apply list_lookup_insert_eq. by eapply lookup_lt_Some.
Qed.

Lemma put_put o k self l n l' n' w :
  put (set_attr k (Some l) o) k self l' n' (put o k self l n w) = put o k self l' n' w.
Proof.
  unfold put. simpl. by rewrite list_insert_insert_eq, set_set_attr.
Qed.

Lemma alloc_put o k self l n w :
  alloc (put o k self l n w) = (inr n, put o k self l (S n) w).
Proof. reflexivity. Qed.

Lemma read_list_put o k self l n w :
  objects w !! self = Some o ->
  read_list k self (put o k self l n w) = (inr l, put o k self l n w).
Proof.
  intros Ho. unfold read_list, bind.
  rewrite (read_self_at _ _ _ (put_lookup o k self l n w Ho)).
  by rewrite get_set_attr_same.
Qed.

Lemma append_put o k self lo acc n w e :
  objects w !! self = Some o ->
  append k self e (put o k self (mkPyList lo acc) n w)
  = (inr tt, put o k self (mkPyList lo (acc ++ [e])) n w).
Proof.
  intros Ho. unfold append, bind. rewrite read_list_put by done.
  rewrite (write_self_at _ _ _ _ (put_lookup o k self _ n w Ho)). simpl.
  f_equal. unfold put. simpl. by rewrite list_insert_insert_eq, set_set_attr.
Qed.

(** The loop of a collection property is [scan]. *)
Lemma loop_eq k self o w lo xs :
  objects w !! self = Some o ->
  forall n acc,
    for_each xs
      (fun group =>
         let* t := lift (subscript group "type") in
         if eq_str t (type_tag k) then
           let* w := get_world in
           let* e := construct k (ENTERPRISE_ATTCK_JSON w) group in
           append k self e
         else ret tt)
      (put o k self (mkPyList lo acc) n w)
    = match scan k (ENTERPRISE_ATTCK_JSON w) xs n acc with
      | (st, n', acc') =>
          (match st with Some e => inl e | None => inr tt end,
           put o k self (mkPyList lo acc') n' w)
      end.
Proof.
  intros Ho. induction xs as [| g xs IH]; intros n acc; simpl; [done |].
  unfold bind at 1. unfold bind at 1.
  destruct (subscript g "type") as [e | t] eqn:Et; simpl; [done |].
  destruct (eq_str t (type_tag k)); simpl; [| apply IH].
  unfold bind at 1. simpl. unfold construct.
  destruct g as [| ? | ? | ? | ? | items]; simpl; try done.
  destruct (dict_get "attck_obj" items); simpl; [done |].
  unfold bind at 1. unfold bind at 1. rewrite alloc_put. simpl.
  rewrite append_put by done. apply IH.
Qed.

(** A property of an object that has the attribute already: the list is
    returned as it is. *)
Lemma collection_cached k self w o l :
  objects w !! self = Some o -> get_attr k o = Some l ->
  collection k self w = (inr l, warned k w).
Proof.
  intros Ho Hl. unfold collection, bind, emit, modify. simpl.
  assert (objects (with_events (events w ++ [Warn k]) w) !! self = Some o) as Ho' by done.
  rewrite (read_self_at _ _ _ Ho'). rewrite Hl. simpl.
  unfold read_list, bind. rewrite (read_self_at _ _ _ Ho'). by rewrite Hl.
Qed.

(** A property of an object that has not: the list is made, the attribute
    assigned, and the loop run. *)
Lemma collection_fresh k self w o :
  objects w !! self = Some o -> get_attr k o = None ->
  collection k self w =
  match fill k (ENTERPRISE_ATTCK_JSON w) (S (next_oid w)) with
  | (st, n', acc) =>
      (match st with
       | Some e => inl e
       | None => inr (mkPyList (next_oid w) acc)
       end,
       put o k self (mkPyList (next_oid w) acc) n' (warned k w))
  end.
Proof.
  intros Ho Hl. unfold collection, bind at 1, emit, modify. simpl.
  assert (objects (warned k w) !! self = Some o) as Ho' by done.
  fold (warned k w). unfold bind at 1. rewrite (read_self_at _ _ _ Ho').
  rewrite Hl. simpl. unfold bind at 1. unfold bind at 1. unfold bind at 1. simpl.
  unfold bind at 1. rewrite (write_self_at _ _ _ o); [| done].
  change (with_objects _ _) with (put o k self (mkPyList (next_oid w) []) (S (next_oid w)) (warned k w)).
  unfold bind at 1. simpl. unfold fill.
  unfold bind at 1.
  destruct (subscript (ENTERPRISE_ATTCK_JSON w) "objects") as [e | objs]; simpl; [done |].
  unfold bind at 1.
  destruct (iterate objs) as [e | xs]; simpl; [done |].
  rewrite (loop_eq k self o (warned k w)) by done. simpl.
  destruct (scan k (ENTERPRISE_ATTCK_JSON w) xs (S (next_oid w)) []) as [[st n'] acc].
  destruct st; [done |]. by rewrite read_list_put.
Qed.

Lemma collection_dead k self w :
  objects w !! self = None -> collection k self w = (inl DeadReference, warned k w).
Proof.
  intros Ho. unfold collection, bind, emit, modify, read_self. simpl. by rewrite Ho.
Qed.

(** ** The loop, node by node *)

Lemma eq_str_has_type g t tag :
  subscript g "type" = inr t -> eq_str t tag = has_type tag g.
Proof.
  intros E. unfold has_type, declared_type. rewrite E.
  destruct t as [| ? | ? | s | ? | ?]; simpl; try reflexivity.
  destruct (String.eqb_spec s tag) as [-> | Hne].
  - symmetry. by apply bool_decide_eq_true.
  - symmetry. apply bool_decide_eq_false. congruence.
Qed.

Lemma has_type_declared tag g : has_type tag g = true <-> declared_type g = Some tag.
Proof. unfold has_type. apply bool_decide_eq_true. Qed.

Lemma views_app k doc n its1 its2 :
  views k doc n (its1 ++ its2)
  = views k doc n its1 ++ views k doc (n + length its1) its2.
Proof.
  revert n. induction its1 as [| it its1 IH]; intros n; simpl.
  - by rewrite Nat.add_0_r.
  - rewrite IH. do 3 f_equal. lia.
Qed.

Lemma views_oid k doc n its : map oid (views k doc n its) = seq n (length its).
Proof. revert n. induction its as [| it its IH]; intros n; simpl; [done | by rewrite IH]. Qed.

Lemma views_kind k doc n its :
  Forall (fun e => kind e = k /\ attck_obj e = doc) (views k doc n its).
Proof. revert n. induction its as [| it its IH]; intros n; simpl; constructor; auto. Qed.

Lemma views_raw_node k doc n xs :
  forallb wf_node xs = true ->
  map raw_node (views k doc n (map items_of xs)) = xs.
Proof.
  revert n. induction xs as [| g xs IH]; intros n H; simpl in *; [done |].
  apply andb_true_iff in H as [Hg Hxs]. rewrite IH by done.
  destruct g; try discriminate. reflexivity.
Qed.

Lemma forallb_filter {A} (p q : A -> bool) (xs : list A) :
  forallb p xs = true -> forallb p (List.filter q xs) = true.
Proof.
  induction xs as [| x xs IH]; simpl; [done |]. intros H.
  apply andb_true_iff in H as [Hx Hxs]. destruct (q x); simpl; [rewrite Hx |]; auto.
Qed.

(** On raw nodes the loop does not raise, and it views the nodes of the kind,
    one after the other. *)
Lemma scan_wf k doc xs :
  forallb wf_node xs = true ->
  forall n acc,
    scan k doc xs n acc
    = (None, n + length (List.filter (has_type (type_tag k)) xs),
       acc ++ views k doc n (map items_of (List.filter (has_type (type_tag k)) xs))).
Proof.
  induction xs as [| g xs IH]; intros H n acc; simpl in *.
  - by rewrite Nat.add_0_r, app_nil_r.
  - apply andb_true_iff in H as [Hg Hxs].
    destruct g as [| ? | ? | ? | ? | items]; try discriminate. simpl in Hg.
    destruct (dict_get "type" items) as [t |] eqn:Et; [| discriminate].
    destruct (dict_get "attck_obj" items) eqn:Ea; [discriminate |].
    assert (subscript (JObj items) "type" = inr t) as Es by (simpl; by rewrite Et).
    simpl. rewrite Et. rewrite (eq_str_has_type _ _ _ Es).
    destruct (has_type (type_tag k) (JObj items)); simpl.
    + rewrite IH by done. rewrite <- app_assoc. simpl.
      do 2 f_equal. lia.
    + by apply IH.
Qed.

(** Whatever the nodes are, the loop only adds entities, each the view of a
    node it visited that declares the tag of the kind, with an identity that
    was free. *)
Lemma scan_sound k doc xs :
  forall n acc st n' acc',
    scan k doc xs n acc = (st, n', acc') ->
    n <= n' /\
    exists new, acc' = acc ++ new /\
      Forall (fun e => kind e = k /\ attck_obj e = doc /\
                       declared_type (raw_node e) = Some (type_tag k) /\
                       raw_node e ∈ xs /\ n <= oid e < n') new.
Proof.
  induction xs as [| g xs IH]; intros n acc st n' acc' H; simpl in H.
  - inversion H; subst. split; [lia |]. exists []. by rewrite app_nil_r.
  - destruct (subscript g "type") as [e | t] eqn:Et.
    { inversion H; subst. split; [lia |]. exists []. by rewrite app_nil_r. }
    rewrite (eq_str_has_type _ _ _ Et) in H.
    destruct (has_type (type_tag k) g) eqn:Ht.
    + destruct g as [| ? | ? | ? | ? | items]; try discriminate.
      destruct (dict_get "attck_obj" items).
      { inversion H; subst. split; [lia |]. exists []. by rewrite app_nil_r. }
      apply IH in H as (Hle & new & -> & Hnew). split; [lia |].
      exists (mkEntity n k doc items :: new). split; [by rewrite <- app_assoc |].
      constructor.
      * simpl. repeat split; try lia.
        -- by apply has_type_declared.
        -- unfold raw_node. simpl. apply list_elem_of_here.
      * eapply Forall_impl; [exact Hnew |]. simpl.
        intros e (? & ? & ? & Hin & ?). repeat split; auto; try lia.
        by apply list_elem_of_further.
    + apply IH in H as (Hle & new & -> & Hnew). split; [lia |].
      exists new. split; [done |].
      eapply Forall_impl; [exact Hnew |]. simpl.
      intros e (? & ? & ? & Hin & ?). repeat split; auto; try lia.
      by apply list_elem_of_further.
Qed.

Lemma fill_sound k doc n st n' acc :
  fill k doc n = (st, n', acc) ->
  n <= n' /\
  Forall (fun e => kind e = k /\ attck_obj e = doc /\
                   declared_type (raw_node e) = Some (type_tag k) /\
                   raw_node e ∈ nodes doc /\ n <= oid e < n') acc.
Proof.
  unfold fill, nodes. intros H.
  destruct (subscript doc "objects") as [e | objs].
  { inversion H; subst. split; [lia | constructor]. }
  destruct (iterate objs) as [e | xs].
  { inversion H; subst. split; [lia | constructor]. }
  apply scan_sound in H as (Hle & new & -> & Hnew). split; [done |]. exact Hnew.
Qed.

Lemma wf_document_nodes doc :
  wf_document doc = true ->
  exists items xs, doc = JObj items /\ dict_get "objects" items = Some (JArr xs) /\
                   nodes doc = xs /\ forallb wf_node xs = true.
Proof.
  unfold wf_document, nodes. destruct doc as [| ? | ? | ? | ? | items]; try discriminate.
  destruct (dict_get "objects" items) as [objs |] eqn:E; [| discriminate].
  destruct objs as [| ? | ? | ? | xs | ?]; try discriminate. intros H.
  exists items, xs. simpl. rewrite E. simpl. done.
Qed.

Lemma fill_wf k doc n :
  wf_document doc = true ->
  fill k doc n = (None, n + length (nodes_of_type k doc),
                  views k doc n (map items_of (nodes_of_type k doc))).
Proof.
  intros H. destruct (wf_document_nodes doc H) as (items & xs & -> & E & Hn & Hwf).
  unfold fill, nodes_of_type. rewrite Hn. simpl. rewrite E. simpl.
  by rewrite scan_wf.
Qed.

Lemma wf_document_truthy doc : wf_document doc = true -> truthy doc = true.
Proof.
  intros H. destruct (wf_document_nodes doc H) as (items & xs & -> & E & _).
  destruct items; [discriminate | done].
Qed.

Lemma nodes_truthy doc g : g ∈ nodes doc -> truthy doc = true.
Proof.
  unfold nodes. destruct doc as [| ? | ? | ? | ? | items]; simpl; try (intros H; by inversion H).
  destruct items; simpl; [intros H; by inversion H | done].
Qed.

Lemma emit_quiet_warn k : keeps quiet (emit (Warn k)).
Proof.
  apply keeps_modify. intros w. unfold quiet. simpl.
  rewrite fetches_app. simpl. rewrite app_nil_r. tauto.
Qed.

Lemma alloc_quiet : keeps quiet alloc.
Proof. intros w. unfold quiet. simpl. tauto. Qed.

Lemma write_self_quiet self f : keeps quiet (write_self self f).
Proof.
  apply keeps_write_self; [apply _ |]. intros w o. unfold quiet. simpl.
  rewrite length_insert. tauto.
Qed.

Lemma read_list_quiet k self : keeps quiet (read_list k self).
Proof.
  unfold read_list. frame quiet.
  match goal with |- context [get_attr k ?o] => destruct (get_attr k o) end; frame quiet.
Qed.

Lemma construct_quiet k doc group : keeps quiet (construct k doc group).
Proof.
  unfold construct. destruct group; frame quiet.
  destruct (dict_get _ _); frame quiet; try apply alloc_quiet.
Qed.

Lemma append_quiet k self e : keeps quiet (append k self e).
Proof.
  unfold append. frame quiet; first [apply read_list_quiet | apply write_self_quiet].
Qed.

(** A collection property touches neither the documents, nor the
    configuration, nor the provider, whatever it answers. *)
Lemma collection_quiet k self : keeps quiet (collection k self).
Proof.
  unfold collection. frame quiet;
    try first [ apply emit_quiet_warn | apply alloc_quiet | apply write_self_quiet
              | apply read_list_quiet ].
  destruct (eq_str _ _); frame quiet; first [apply construct_quiet | apply append_quiet].
Qed.

Lemma collection_quiet_doc k self w :
  ENTERPRISE_ATTCK_JSON (snd (collection k self w)) = ENTERPRISE_ATTCK_JSON w /\
  ENTERPRISE_GENERATED_DATA_JSON (snd (collection k self w)) = ENTERPRISE_GENERATED_DATA_JSON w.
Proof. destruct (collection_quiet k self w) as (H1 & H2 & _). auto. Qed.

(** ** One operation at a time *)

Lemma load_data_dead self force w :
  objects w !! self = None -> snd (__load_data self force w) = w.
Proof.
  intros Ho. unfold __load_data, bind, get_world, when, read_self. simpl.
  destruct (truthy (ENTERPRISE_ATTCK_JSON w)); simpl.
  - destruct (truthy (ENTERPRISE_GENERATED_DATA_JSON w)); simpl; [done |].
    by rewrite Ho.
  - by rewrite Ho.
Qed.

Lemma load_doc st ds force w :
  ENTERPRISE_ATTCK_JSON (snd (load st ds force w)) = ENTERPRISE_ATTCK_JSON w \/
  truthy (ENTERPRISE_ATTCK_JSON w) = false /\
  mitre ds force (if st then Some true else None)
  = inr (ENTERPRISE_ATTCK_JSON (snd (load st ds force w))).
Proof.
  unfold load, fetch_graph, fetch_generated, bind.
  destruct (truthy (ENTERPRISE_ATTCK_JSON w)) eqn:Td; simpl.
  - left. destruct (truthy (ENTERPRISE_GENERATED_DATA_JSON w)); simpl; [done |].
    by destruct (generated_attck_data ds force).
  - destruct (mitre ds force _) as [e | d] eqn:Em; simpl; [by left |].
    right. split; [done |]. f_equal.
    destruct (truthy (ENTERPRISE_GENERATED_DATA_JSON w)); simpl; [done |].
    by destruct (generated_attck_data ds force).
Qed.

(** What [update] leaves: the state as it was, or the state after the two
    halves of the load with the attributes of the object. *)
Lemma step_update w self :
  step w (Update self) = w \/
  exists o, objects w !! self = Some o /\
            step w (Update self) = snd (load (subtechniques o) (datasets o) true w).
Proof.
  simpl. unfold update. destruct (objects w !! self) as [o |] eqn:Ho.
  - right. exists o. split; [done |]. by rewrite (load_data_eq _ _ _ _ Ho).
  - left. by apply load_data_dead.
Qed.

(** What [Attck(...)] leaves: the state after the load, with or without the
    new object. *)
Lemma step_new w a ds :
  let w1 := snd (load (arg_subtechniques a) ds false (begun a ds w)) in
  step w (New a ds) = w1 \/ step w (New a ds) = with_objects (objects w) w1.
Proof.
  simpl. rewrite Attck_eq.
  destruct (load _ _ _ _) as [[e | u] w']; simpl; [by right | by left].
Qed.

Lemma step_new_facts w a ds :
  let w' := step w (New a ds) in
  (objects w' = objects w \/ objects w' = objects w ++ [fresh_object a ds]) /\
  next_oid w' = next_oid w /\
  Configuration_attrs w' = config_after a (Configuration_attrs w) /\
  settled w w' /\
  (ENTERPRISE_ATTCK_JSON w' = ENTERPRISE_ATTCK_JSON w \/
   truthy (ENTERPRISE_ATTCK_JSON w) = false /\
   mitre ds false (if arg_subtechniques a then Some true else None)
   = inr (ENTERPRISE_ATTCK_JSON w')).
Proof.
  intros w'.
  pose proof (load_objects (arg_subtechniques a) ds false (begun a ds w)) as (Ho & Hn & Hc).
  pose proof (load_settled (arg_subtechniques a) ds false (begun a ds w)) as Hs.
  pose proof (load_doc (arg_subtechniques a) ds false (begun a ds w)) as Hd.
  destruct (step_new w a ds) as [E | E]; subst w'; rewrite E; simpl;
    rewrite ?Ho, ?Hn, ?Hc; simpl; repeat split; auto; apply Hs.
Qed.

Lemma step_update_facts w self :
  let w' := step w (Update self) in
  objects w' = objects w /\ next_oid w' = next_oid w /\
  Configuration_attrs w' = Configuration_attrs w /\ settled w w'.
Proof.
  intros w'. destruct (step_update w self) as [E | (o & Ho & E)]; subst w'; rewrite E.
  - repeat split; auto.
  - pose proof (load_objects (subtechniques o) (datasets o) true w) as (H1 & H2 & H3).
    repeat split; auto; apply load_settled.
Qed.

(** What a collection property leaves. *)
Lemma step_get w k self :
  step w (Get k self) = warned k w \/
  exists o st n' acc,
    objects w !! self = Some o /\ get_attr k o = None /\
    fill k (ENTERPRISE_ATTCK_JSON w) (S (next_oid w)) = (st, n', acc) /\
    step w (Get k self) = put o k self (mkPyList (next_oid w) acc) n' (warned k w).
Proof.
  simpl. destruct (objects w !! self) as [o |] eqn:Ho.
  - destruct (get_attr k o) as [l |] eqn:Hl.
    + left. by rewrite (collection_cached _ _ _ _ _ Ho Hl).
    + right. rewrite (collection_fresh _ _ _ _ Ho Hl).
      destruct (fill k (ENTERPRISE_ATTCK_JSON w) (S (next_oid w))) as [[st n'] acc] eqn:Ef.
      exists o, st, n', acc. by destruct st.
  - left. by rewrite collection_dead.
Qed.

Lemma step_settled w op : settled w (step w op).
Proof.
  destruct op as [a ds | self | k self].
  - apply step_new_facts.
  - apply step_update_facts.
  - pose proof (collection_quiet_doc k self w) as [H1 H2].
    split; intros _; simpl; congruence.
Qed.

(** ** Invariants *)

Lemma fresh_object_no_attr a ds k : get_attr k (fresh_object a ds) = None.
Proof. by destruct k. Qed.

Lemma entity_ok_carry w w' k e :
  entity_ok w k e -> settled w w' -> next_oid w <= next_oid w' -> entity_ok w' k e.
Proof.
  intros (Hk & Ha & Ht & Hin & Hlt) [Hs _] Hle.
  pose proof (Hs (nodes_truthy _ _ Hin)) as E.
  unfold entity_ok. rewrite E. repeat split; auto. lia.
Qed.

(** What an object holds after an operation, it held before, unless it is
    the list a collection property has just made. *)
Lemma step_objects w op self o k l :
  objects (step w op) !! self = Some o -> get_attr k o = Some l ->
  (exists o0, objects w !! self = Some o0 /\ get_attr k o0 = Some l) \/
  (exists o0 st n' acc,
     op = Get k self /\ objects w !! self = Some o0 /\ get_attr k o0 = None /\
     fill k (ENTERPRISE_ATTCK_JSON w) (S (next_oid w)) = (st, n', acc) /\
     l = mkPyList (next_oid w) acc /\ next_oid (step w op) = n').
Proof.
  intros Ho Hl. destruct op as [a ds | self' | k' self'].
  - left. destruct (step_new_facts w a ds) as ([E | E] & _); rewrite E in Ho.
    + eauto.
    + apply lookup_app_Some in Ho as [Ho | [_ Ho]]; [eauto |].
      destruct (self - length (objects w)); simpl in Ho; [| done].
      injection Ho as <-. by rewrite fresh_object_no_attr in Hl.
  - left. destruct (step_update_facts w self') as (E & _). rewrite E in Ho. eauto.
  - destruct (step_get w k' self') as [E | (o0 & st & n' & acc & Ho0 & Hn & Ef & E)];
      rewrite E in *; [left; eauto |].
    simpl in Ho. destruct (decide (self' = self)) as [-> | Hne].
    + rewrite list_lookup_insert_eq in Ho by (by eapply lookup_lt_Some).
      injection Ho as <-. destruct (decide (k' = k)) as [-> | Hk].
      * rewrite get_set_attr_same in Hl. injection Hl as <-.
        right. exists o0, st, n', acc. done.
      * rewrite get_set_attr_other in Hl by done. left. eauto.
    + rewrite list_lookup_insert_ne in Ho by done. left. eauto.
Qed.

Lemma step_next_oid w op : next_oid w <= next_oid (step w op).
Proof.
  destruct op as [a ds | self | k self].
  - destruct (step_new_facts w a ds) as (_ & E & _). lia.
  - destruct (step_update_facts w self) as (_ & E & _). lia.
  - destruct (step_get w k self) as [E | (o0 & st & n' & acc & _ & _ & Ef & E)];
      rewrite E; simpl; [lia |].
    apply fill_sound in Ef as [Hle _]. lia.
Qed.

Lemma step_get_doc w k self :
  ENTERPRISE_ATTCK_JSON (step w (Get k self)) = ENTERPRISE_ATTCK_JSON w.
Proof. apply collection_quiet_doc. Qed.

(** Every entity any object holds views a node of its kind of the loaded
    document. *)
Lemma sound_step w op : sound w -> sound (step w op).
Proof.
  intros Hs self o k l e Ho Hl He.
  destruct (step_objects w op self o k l Ho Hl)
    as [(o0 & Ho0 & Hl0) | (o0 & st & n' & acc & -> & Ho0 & Hn & Ef & -> & En)].
  - eapply entity_ok_carry; [by eapply Hs | apply step_settled | apply step_next_oid].
  - apply fill_sound in Ef as [Hle Hall]. simpl in He.
    rewrite Forall_forall in Hall. destruct (Hall e He) as (H1 & H2 & H3 & H4 & H5).
    unfold entity_ok. rewrite step_get_doc, En. repeat split; auto. lia.
Qed.

Lemma sound_initial cfg : sound (initial cfg).
Proof. intros self o k l e Ho. by destruct self. Qed.

Lemma sound_run ops w : sound w -> sound (run ops w).
Proof.
  revert w. induction ops as [| op ops IH]; intros w H; simpl; [done |].
  by apply IH, sound_step.
Qed.

Lemma sound_reachable w : reachable w -> sound w.
Proof. intros (cfg & ops & ->). apply sound_run, sound_initial. Qed.

(** The document that is there stays, over any run. *)
Lemma run_settled ops w : settled w (run ops w).
Proof.
  revert w. induction ops as [| op ops IH]; intros w; simpl; [reflexivity |].
  etransitivity; [apply step_settled | apply IH].
Qed.

(** What an object holds for a kind, it holds for good. *)
Lemma holds_step k self l w op : holds k self l w -> holds k self l (step w op).
Proof.
  intros (o & Ho & Hl). destruct op as [a ds | self' | k' self'].
  - destruct (step_new_facts w a ds) as ([E | E] & _); exists o; rewrite E;
      [done | split; [by apply lookup_app_l_Some | done]].
  - destruct (step_update_facts w self') as (E & _). exists o. by rewrite E.
  - destruct (step_get w k' self') as [E | (o0 & st & n' & acc & Ho0 & Hn & Ef & E)];
      rewrite E; [by exists o |].
    simpl. destruct (decide (self' = self)) as [-> | Hne].
    + assert (o0 = o) as -> by congruence.
      exists (set_attr k' (Some (mkPyList (next_oid w) acc)) o). split.
      * apply list_lookup_insert_eq. by eapply lookup_lt_Some.
      * rewrite get_set_attr_other; [done | congruence].
    + exists o. simpl. by rewrite list_lookup_insert_ne.
Qed.

Lemma holds_run k self l ops w : holds k self l w -> holds k self l (run ops w).
Proof.
  revert w. induction ops as [| op ops IH]; intros w H; simpl; [done |].
  by apply IH, holds_step.
Qed.

Lemma collection_holds k self w l w' :
  collection k self w = (inr l, w') -> holds k self l w'.
Proof.
  intros H. destruct (objects w !! self) as [o |] eqn:Ho.
  - destruct (get_attr k o) as [l0 |] eqn:Hl.
    + rewrite (collection_cached _ _ _ _ _ Ho Hl) in H. injection H as <- <-.
      by exists o.
    + rewrite (collection_fresh _ _ _ _ Ho Hl) in H.
      destruct (fill _ _ _) as [[st n'] acc]. destruct st; [done |].
      injection H as <- <-. eexists. split.
      * apply put_lookup. exact Ho.
      * by rewrite get_set_attr_same.
  - by rewrite collection_dead in H.
Qed.

Lemma holds_collection k self l w :
  holds k self l w -> collection k self w = (inr l, warned k w).
Proof. intros (o & Ho & Hl). by apply collection_cached with o. Qed.

Lemma holds_lookup k self l w :
  (objects w !! self) ≫= get_attr k = Some l -> holds k self l w.
Proof.
  intros H. destruct (objects w !! self) as [o |] eqn:Ho; [| done].
  exists o. done.
Qed.

Lemma step_new_unloaded w a ds :
  truthy (ENTERPRISE_ATTCK_JSON w) = false ->
  (exists d, mitre ds false (if arg_subtechniques a then Some true else None) = inr d /\
             ENTERPRISE_ATTCK_JSON (step w (New a ds)) = d) \/
  (ENTERPRISE_ATTCK_JSON (step w (New a ds)) = ENTERPRISE_ATTCK_JSON w /\
   objects (step w (New a ds)) = objects w).
Proof.
  intros Td. simpl. rewrite Attck_eq. unfold load, fetch_graph, fetch_generated, bind.
  simpl. rewrite Td.
  destruct (mitre ds false _) as [e | d]; simpl; [by right |].
  left. exists d. split; [done |].
  destruct (truthy (ENTERPRISE_GENERATED_DATA_JSON w)); simpl; [done |].
  by destruct (generated_attck_data ds false).
Qed.

Lemma wf_datasets_answer ds (st : bool) :
  wf_datasets ds = true ->
  wf_answer (mitre ds false (if st then Some true else None)) = true.
Proof.
  unfold wf_datasets. intros H.
  apply andb_true_iff in H as [H _]. apply andb_true_iff in H as [H _].
  apply andb_true_iff in H as [H1 H2]. by destruct st.
Qed.

(** With providers of graph documents the lists the objects hold are whole. *)
Lemma complete_step w op : wf_op op = true -> complete w -> complete (step w op).
Proof.
  intros Hop [Hdoc Hlists].
  assert (ENTERPRISE_ATTCK_JSON (step w op) = ENTERPRISE_ATTCK_JSON w \/
          objects w = [] /\
          (ENTERPRISE_ATTCK_JSON (step w op) = JNull /\ objects (step w op) = [] \/
           wf_document (ENTERPRISE_ATTCK_JSON (step w op)) = true)) as Hcase.
  { destruct Hdoc as [[Hnull Hemp] | Hwf].
    - destruct op as [a ds | self | k self].
      + right. split; [done |].
        destruct (step_new_unloaded w a ds) as [(d & Em & Ed) | [Ed Eo]];
          [by rewrite Hnull | |].
        * right. pose proof (wf_datasets_answer ds (arg_subtechniques a) Hop) as Ha.
          rewrite Em in Ha. by rewrite Ed.
        * left. by rewrite Ed, Eo.
      + left. destruct (step_update w self) as [E | (o & Ho & _)]; [by rewrite E |].
        by rewrite Hemp in Ho.
      + left. apply step_get_doc.
    - left. apply (step_settled w op). by apply wf_document_truthy. }
  split.
  - destruct Hcase as [E | [_ H]]; [| exact H].
    destruct Hdoc as [[Hnull Hemp] | Hwf]; [| right; by rewrite E].
    left. split; [by rewrite E |].
    destruct op as [a ds | self | k self].
    + destruct (step_new_unloaded w a ds) as [(d & Em & Ed) | [Ed Eo]];
        [by rewrite Hnull | | by rewrite Eo].
      pose proof (wf_datasets_answer ds (arg_subtechniques a) Hop) as Ha.
      rewrite Em in Ha. simpl in Ha. rewrite <- Ed, E, Hnull in Ha. done.
    + destruct (step_update_facts w self) as (Eo & _). by rewrite Eo.
    + destruct (step_get w k self) as [Eg | (o0 & st & n' & acc & Ho0 & _)];
        [by rewrite Eg | by rewrite Hemp in Ho0].
  - intros self o k l Ho Hl.
    destruct (step_objects w op self o k l Ho Hl)
      as [(o0 & Ho0 & Hl0) | (o0 & st & n' & acc & -> & Ho0 & Hn & Ef & -> & En)].
    + destruct Hcase as [E | [Hemp _]]; [| by rewrite Hemp in Ho0].
      rewrite E. eauto.
    + rewrite step_get_doc.
      destruct Hdoc as [[_ Hemp] | Hwf]; [by rewrite Hemp in Ho0 |].
      rewrite (fill_wf _ _ _ Hwf) in Ef. injection Ef as _ _ <-. simpl. eauto.
Qed.

Lemma complete_initial cfg : complete (initial cfg).
Proof. split; [by left |]. intros self o k l Ho. by destruct self. Qed.

Lemma complete_run ops w :
  forallb wf_op ops = true -> complete w -> complete (run ops w).
Proof.
  revert w. induction ops as [| op ops IH]; intros w Hops H; simpl in *; [done |].
  apply andb_true_iff in Hops as [Hop Hops]. by apply IH, complete_step.
Qed.

(** The entities of a whole list: one for each node of the kind, in document
    order, each a Python object of its own. *)
Lemma views_whole k doc n :
  wf_document doc = true ->
  let l := views k doc n (map items_of (nodes_of_type k doc)) in
  map raw_node l = nodes_of_type k doc /\
  Forall (fun e => kind e = k /\ attck_obj e = doc) l /\
  NoDup (map oid l).
Proof.
  intros H l. destruct (wf_document_nodes doc H) as (items & xs & -> & E & Hn & Hwf).
  subst l. split; [| split].
  - apply views_raw_node. unfold nodes_of_type. rewrite Hn. by apply forallb_filter.
  - apply views_kind.
  - rewrite views_oid. apply NoDup_seq.
Qed.

(** ** Loading *)

Global Instance still_preorder : PreOrder still.
Proof.
  split.
  - intros w. unfold still. tauto.
  - intros a b c (H1 & H2 & H3) (K1 & K2 & K3). unfold still. repeat split; congruence.
Qed.

Lemma load_loaded st ds force w : loaded w -> load st ds force w = (inr tt, w).
Proof.
  intros [Hd Hg]. unfold load, fetch_graph, fetch_generated, bind. by rewrite Hd, Hg.
Qed.

Lemma update_loaded self w : loaded w -> update self w = (inr tt, w).
Proof. apply load_data_loaded. Qed.

Lemma Attck_loaded a ds w :
  loaded w -> Attck a ds w = (inr (length (objects w)), begun a ds w).
Proof. intros H. rewrite Attck_eq. by rewrite load_loaded. Qed.

Lemma load_events st ds force w :
  events (snd (load st ds force w)) = events w ++ load_requests st ds force w.
Proof.
  unfold load, fetch_graph, fetch_generated, load_requests, bind.
  destruct (truthy (ENTERPRISE_ATTCK_JSON w)); simpl.
  - destruct (truthy (ENTERPRISE_GENERATED_DATA_JSON w)); simpl; [by rewrite app_nil_r |].
    by destruct (generated_attck_data ds force).
  - destruct (mitre ds force _); simpl; [done |].
    destruct (truthy (ENTERPRISE_GENERATED_DATA_JSON w)); simpl; [done |].
    destruct (generated_attck_data ds force); simpl; by rewrite <- app_assoc.
Qed.

Lemma Attck_events a ds w :
  events (snd (Attck a ds w))
  = events w ++ config_events a ++ load_requests (arg_subtechniques a) ds false w.
Proof.
  rewrite Attck_eq.
  pose proof (load_events (arg_subtechniques a) ds false (begun a ds w)) as H.
  destruct (load _ _ _ _) as [[e | u] w']; simpl in *; rewrite H; by rewrite <- app_assoc.
Qed.

Lemma config_events_no_fetch a : fetches (config_events a) = [].
Proof.
  unfold config_events.
  destruct (truthy_arg (arg_attck_json a) || truthy_arg (arg_dataset_json a));
    by destruct (arg_force a).
Qed.

Lemma config_events_unforced a : Forall (fun e => forced e = false) (config_events a).
Proof.
  unfold config_events.
  destruct (truthy_arg (arg_attck_json a) || truthy_arg (arg_dataset_json a));
    destruct (arg_force a); simpl; repeat constructor.
Qed.

Lemma load_requests_flag st ds force w :
  Forall (fun e => forced e = force /\ is_fetch e = true) (load_requests st ds force w).
Proof.
  unfold load_requests.
  destruct (truthy (ENTERPRISE_ATTCK_JSON w)).
  - destruct (truthy (ENTERPRISE_GENERATED_DATA_JSON w)); repeat constructor.
  - destruct (mitre ds force _); [repeat constructor |].
    destruct (truthy (ENTERPRISE_GENERATED_DATA_JSON w)); repeat constructor.
Qed.

Lemma fetches_all (l : list Event) :
  Forall (fun e => is_fetch e = true) l -> fetches l = l.
Proof.
  induction 1 as [| e l He _ IH]; simpl; [done |]. rewrite He. by rewrite IH.
Qed.

(** Once both documents are there, no operation changes them or asks the
    provider for anything. *)
Lemma step_loaded w op : loaded w -> still w (step w op) /\ loaded (step w op).
Proof.
  intros Hl.
  assert (still w (step w op)) as Hs.
  { destruct op as [a ds | self | k self]; simpl.
    - rewrite (Attck_loaded _ _ _ Hl). unfold still. simpl.
      rewrite fetches_app, config_events_no_fetch, app_nil_r. done.
    - rewrite (update_loaded _ _ Hl). reflexivity.
    - destruct (collection_quiet k self w) as (H1 & H2 & _ & H4 & _).
      unfold still. done. }
  split; [exact Hs |]. destruct Hs as (H1 & H2 & _), Hl as [Hd Hg].
  unfold loaded. by rewrite H1, H2.
Qed.

Lemma run_loaded ops w : loaded w -> still w (run ops w) /\ loaded (run ops w).
Proof. apply (keeps_run_step still loaded). intros ? ?. apply step_loaded. Qed.

(** ** Looking a node up by its id *)

Lemma nodeById_agree i tag xs :
  forallb (fun g => implb (has_id i g) (has_type tag g)) xs = true ->
  forall acc,
    (exists g, g ∈ xs /\ has_id i g = true) \/
    (exists g, acc = Some g /\ declared_type g = Some tag) ->
    exists g, fold_left (fun found g => if has_id i g then Some g else found) xs acc = Some g /\
              declared_type g = Some tag.
Proof.
  induction xs as [| x xs IH]; intros Hall acc Hacc; simpl in *.
  - destruct Hacc as [(g & Hin & _) | H]; [by inversion Hin | exact H].
  - apply andb_true_iff in Hall as [Hx Hxs]. apply IH; [done |].
    destruct (has_id i x) eqn:Hid.
    + right. exists x. split; [done |]. by apply has_type_declared.
    + destruct Hacc as [(g & Hin & Hg) | H]; [| by right].
      left. exists g. split; [| done].
      inversion Hin; subst; [congruence | done].
Qed.

(** * The claims *)

(** ** C1: [update] and the loaded documents *)

(** C1.  [update()] is documented to force a reload of both documents from
    the provider.  On the process as [Attck()] leaves it, [update()] returns
    with the state untouched: the graph document is still the one of the
    first load, although a fetch with the force flag set answers another
    one, so the claim fails there. *)
Theorem update_keeps_loaded_documents :
  update 0 world_loaded = (inr tt, world_loaded) /\
  ENTERPRISE_ATTCK_JSON world_loaded = doc_plain /\
  mitre sample_datasets true None = inr doc_newer /\
  doc_newer <> doc_plain /\
  ~ update_reloads 0 world_loaded.
Proof.
  assert (doc_newer <> doc_plain) as Hne.
  { intros H. apply (f_equal (fun d => length (nodes d))) in H. vm_compute in H. lia. }
  split; [| split; [| split; [| split]]].
  - apply update_loaded. split; reflexivity.
  - reflexivity.
  - reflexivity.
  - exact Hne.
  - intros H. specialize (H _ eq_refl).
    rewrite update_loaded in H by (split; reflexivity).
    apply (f_equal (fun r : exn + json =>
                      match r with inr d => length (nodes d) | inl _ => 0 end)) in H.
    vm_compute in H. lia.
Qed.

(** ** C9: the documents belong to the class *)

(** C9.  Once both class-level documents are loaded, whatever happens next,
    a call [Attck(...)] succeeds, whatever its arguments and its provider,
    leaves both documents as they were, and asks the provider for nothing. *)
Theorem later_objects_reuse_loaded_documents
    (w : World) (ops : list Op) (a : InitArgs) (ds : AttckDatasets) :
  loaded w ->
  exists w',
    Attck a ds (run ops w) = (inr (length (objects (run ops w))), w') /\
    ENTERPRISE_ATTCK_JSON w' = ENTERPRISE_ATTCK_JSON w /\
    ENTERPRISE_GENERATED_DATA_JSON w' = ENTERPRISE_GENERATED_DATA_JSON w /\
    fetches (events w') = fetches (events w).
Proof.
  intros Hl. destruct (run_loaded ops w Hl) as [(H1 & H2 & H3) Hl'].
  exists (begun a ds (run ops w)). split; [by apply Attck_loaded |].
  simpl. rewrite fetches_app, config_events_no_fetch, app_nil_r. done.
Qed.

Lemma later_objects_reuse_loaded_documents_witness :
  loaded world_loaded /\
  exists w',
    Attck args_subtechniques datasets_duplicate_id
          (run [Get Technique 0; Update 0] world_loaded)
    = (inr (length (objects (run [Get Technique 0; Update 0] world_loaded))), w') /\
    ENTERPRISE_ATTCK_JSON w' = ENTERPRISE_ATTCK_JSON world_loaded /\
    ENTERPRISE_GENERATED_DATA_JSON w' = ENTERPRISE_GENERATED_DATA_JSON world_loaded /\
    fetches (events w') = fetches (events world_loaded).
Proof.
  assert (loaded world_loaded) as H by (split; reflexivity).
  split; [exact H |].
  apply (later_objects_reuse_loaded_documents world_loaded [Get Technique 0; Update 0]
           args_subtechniques datasets_duplicate_id H).
Defined.

(** ** C6: the [force] argument of the constructor *)

(** C6, as written, fails: [Attck(force=True)] in a process that has loaded
    nothing asks for both documents with the force flag down. *)
Lemma force_argument_counterexample :
  ~ reloads_with_force (initial ∅) args_force sample_datasets.
Proof.
  intros [_ H]. vm_compute in H. intuition discriminate.
Qed.

(** C6, amended.  With [force] set the constructor calls
    [Configuration().set()] without arguments; every request it makes to the
    provider has the force flag down; the requests are those of
    [__load_data] with [force] left at its default. *)
Theorem force_resets_configuration_only (w : World) (a : InitArgs) (ds : AttckDatasets) :
  arg_force a = true ->
  exists added,
    events (snd (Attck a ds w)) = events w ++ added /\
    In CallConfigurationSetDefaults added /\
    Forall (fun e => forced e = false) added /\
    fetches added = load_requests (arg_subtechniques a) ds false w.
Proof.
  intros Hf.
  exists (config_events a ++ load_requests (arg_subtechniques a) ds false w).
  assert (fetches (config_events a ++ load_requests (arg_subtechniques a) ds false w)
          = load_requests (arg_subtechniques a) ds false w) as Hfetch.
  { rewrite fetches_app, config_events_no_fetch. simpl. apply fetches_all.
    eapply Forall_impl; [apply load_requests_flag |]. by intros e [_ H]. }
  split; [apply Attck_events |]. split; [| split].
  - apply in_or_app. left. unfold config_events. rewrite Hf.
    apply in_or_app. right. by left.
  - apply Forall_app. split; [apply config_events_unforced |].
    eapply Forall_impl; [apply load_requests_flag |]. by intros e [H _].
  - exact Hfetch.
Qed.

Lemma force_resets_configuration_only_witness :
  arg_force args_force = true /\
  exists added,
    events (snd (Attck args_force sample_datasets (initial ∅)))
    = events (initial ∅) ++ added /\
    In CallConfigurationSetDefaults added /\
    Forall (fun e => forced e = false) added /\
    fetches added
    = load_requests (arg_subtechniques args_force) sample_datasets false (initial ∅).
Proof.
  split; [reflexivity |].
  apply (force_resets_configuration_only (initial ∅) args_force sample_datasets).
  reflexivity.
Defined.

(** ** C7: the [subtechniques] argument of the constructor *)

(** C7, as written, fails: after [Attck()] has loaded the graph document
    without sub-techniques, [Attck(subtechniques=True)] does not ask the
    provider for anything, and the document in use is the one without. *)
Lemma subtechniques_argument_counterexample :
  ~ fetches_subtechniques world_loaded args_subtechniques sample_datasets /\
  ENTERPRISE_ATTCK_JSON (snd (Attck args_subtechniques sample_datasets world_loaded))
  = doc_plain /\
  mitre sample_datasets false (Some true) = inr doc_sub /\
  doc_sub <> doc_plain.
Proof.
  split; [| split; [| split]].
  - intros [f H]. vm_compute in H. intuition discriminate.
  - reflexivity.
  - reflexivity.
  - intros H. apply (f_equal (fun d => length (nodes d))) in H. vm_compute in H. lia.
Qed.

(** C7, amended.  With [subtechniques] set: while no graph document is
    loaded, the constructor asks the provider once for the graph document,
    with sub-techniques (and the force flag down), and the document answered
    becomes the class-level one; when a graph document is loaded, it stays
    and the provider is not asked for one. *)
Theorem subtechniques_asked_on_first_load (w : World) (a : InitArgs) (ds : AttckDatasets) :
  arg_subtechniques a = true ->
  if truthy (ENTERPRISE_ATTCK_JSON w) then
    ENTERPRISE_ATTCK_JSON (snd (Attck a ds w)) = ENTERPRISE_ATTCK_JSON w /\
    exists added,
      events (snd (Attck a ds w)) = events w ++ added /\
      Forall (fun e => forall f st, e <> CallMitre f st) added
  else
    exists rest,
      events (snd (Attck a ds w))
      = events w ++ config_events a ++ CallMitre false (Some true) :: rest /\
      Forall (fun e => e = CallGenerated false) rest /\
      forall d, mitre ds false (Some true) = inr d ->
                ENTERPRISE_ATTCK_JSON (snd (Attck a ds w)) = d.
Proof.
  intros Hs. destruct (truthy (ENTERPRISE_ATTCK_JSON w)) eqn:Hd.
  - destruct (step_new_facts w a ds) as (_ & _ & _ & [Hset _] & _).
    split; [by apply Hset |].
    rewrite Attck_events. eexists. split; [reflexivity |].
    apply Forall_app. split.
    + unfold config_events.
      destruct (truthy_arg (arg_attck_json a) || truthy_arg (arg_dataset_json a));
        destruct (arg_force a); simpl; repeat constructor; done.
    + unfold load_requests. rewrite Hd.
      destruct (truthy (ENTERPRISE_GENERATED_DATA_JSON w)); repeat constructor; done.
  - rewrite Attck_events. unfold load_requests. rewrite Hd, Hs.
    eexists. split; [reflexivity |]. split.
    + destruct (mitre ds false (Some true)); [constructor |].
      destruct (truthy (ENTERPRISE_GENERATED_DATA_JSON w)); repeat constructor.
    + intros d Hm. rewrite Attck_eq.
      unfold load, fetch_graph, fetch_generated, bind. simpl. rewrite Hd, Hs, Hm. simpl.
      destruct (truthy (ENTERPRISE_GENERATED_DATA_JSON w)); simpl; [done |].
      by destruct (generated_attck_data ds false).
Qed.

Lemma subtechniques_asked_on_first_load_witness :
  arg_subtechniques args_subtechniques = true /\
  exists rest,
    events (snd (Attck args_subtechniques sample_datasets (initial ∅)))
    = events (initial ∅) ++ config_events args_subtechniques
      ++ CallMitre false (Some true) :: rest /\
    Forall (fun e => e = CallGenerated false) rest /\
    forall d, mitre sample_datasets false (Some true) = inr d ->
              ENTERPRISE_ATTCK_JSON (snd (Attck args_subtechniques sample_datasets (initial ∅))) = d.
Proof.
  split; [reflexivity |].
  apply (subtechniques_asked_on_first_load (initial ∅) args_subtechniques sample_datasets).
  reflexivity.
Defined.

(** ** C8: a document without [objects] *)

(** C8, as written, fails: with a provider that answers a graph document
    without [objects], [Attck()] returns an object; the failure comes with
    the first collection property, and it is a [KeyError]. *)
Lemma missing_objects_counterexample :
  ~ fails_at_load (initial ∅) default_args datasets_no_objects /\
  fst (Attck default_args datasets_no_objects (initial ∅)) = inr 0 /\
  fst (techniques 0 world_no_objects) = inl (KeyError "objects").
Proof.
  split; [| split; reflexivity].
  intros [e H]. vm_compute in H. discriminate.
Qed.

(** C8, amended.  Loading does not look into the document: when no graph
    document is loaded and the provider answers a mapping without the key
    [objects], the constructor succeeds and keeps that document, and each
    collection property of the new object, asked first, raises
    [KeyError] for the key [objects]. *)
Theorem missing_objects_fail_at_first_access
    (w : World) (a : InitArgs) (ds : AttckDatasets) (items : list (string * json)) (g : json) :
  truthy (ENTERPRISE_ATTCK_JSON w) = false ->
  mitre ds false (if arg_subtechniques a then Some true else None) = inr (JObj items) ->
  dict_get "objects" items = None ->
  generated_attck_data ds false = inr g ->
  exists w',
    Attck a ds w = (inr (length (objects w)), w') /\
    ENTERPRISE_ATTCK_JSON w' = JObj items /\
    forall k, fst (collection k (length (objects w)) w') = inl (KeyError "objects").
Proof.
  intros Hd Hm Hk Hg.
  assert (exists w', Attck a ds w = (inr (length (objects w)), w') /\
                     ENTERPRISE_ATTCK_JSON w' = JObj items /\
                     objects w' = objects w ++ [fresh_object a ds]) as (w' & E & Ed & Eo).
  { rewrite Attck_eq. unfold load, fetch_graph, fetch_generated, bind. simpl.
    rewrite Hd, Hm. simpl.
    destruct (truthy (ENTERPRISE_GENERATED_DATA_JSON w)); simpl;
      [| rewrite Hg; simpl]; eexists; split; try reflexivity; done. }
  exists w'. split; [exact E |]. split; [exact Ed |]. intros k.
  rewrite (collection_fresh k _ w' (fresh_object a ds)).
  - unfold fill. rewrite Ed. simpl. by rewrite Hk.
  - rewrite Eo. by apply list_lookup_middle.
  - apply fresh_object_no_attr.
Qed.

Lemma missing_objects_fail_at_first_access_witness :
  exists w',
    Attck default_args datasets_no_objects (initial ∅) = (inr (length (objects (initial ∅))), w') /\
    ENTERPRISE_ATTCK_JSON w' = JObj [("type", JStr "bundle")] /\
    forall k, fst (collection k (length (objects (initial ∅))) w') = inl (KeyError "objects").
Proof.
  apply (missing_objects_fail_at_first_access (initial ∅) default_args datasets_no_objects
           [("type", JStr "bundle")] doc_generated); reflexivity.
Defined.

(** ** C3 and C4: the lists are made once *)

(** What a collection property that returns has done. *)
Lemma collection_returns k self w l w' :
  collection k self w = (inr l, w') ->
  holds k self l w /\ w' = warned k w \/
  exists o n',
    objects w !! self = Some o /\ get_attr k o = None /\
    fill k (ENTERPRISE_ATTCK_JSON w) (S (next_oid w)) = (None, n', elements l) /\
    list_oid l = next_oid w /\ next_oid w' = n'.
Proof.
  intros H. destruct (objects w !! self) as [o |] eqn:Ho.
  - destruct (get_attr k o) as [l0 |] eqn:Hl.
    + rewrite (collection_cached _ _ _ _ _ Ho Hl) in H. injection H as <- <-.
      left. split; [by exists o | done].
    + rewrite (collection_fresh _ _ _ _ Ho Hl) in H.
      destruct (fill _ _ _) as [[st n'] acc] eqn:Ef. destruct st; [done |].
      injection H as <- <-. right. exists o, n'. done.
  - by rewrite collection_dead in H.
Qed.

(** A list an object holds is returned again after any run, and nothing is
    made for it. *)
Lemma collection_again k self l w ops :
  holds k self l w ->
  exists w'', collection k self (run ops w) = (inr l, w'') /\
              next_oid w'' = next_oid (run ops w).
Proof.
  intros H. exists (warned k (run ops w)). split; [| done].
  by apply holds_collection, holds_run.
Qed.

(** C3, as written, fails: the second access of [techniques] on an object
    answers the list and the entities of the first access; nothing in it is
    newer than the state the access started from. *)
Lemma fresh_entities_counterexample :
  exists l w',
    techniques 0 world_seen = (inr l, w') /\
    elements l <> [] /\
    ~ built_afresh world_seen l /\
    next_oid w' = next_oid world_seen.
Proof.
  assert (holds Technique 0
            (mkPyList 0 (views Technique doc_plain 1
                           [items_of (node "attack-pattern" "attack-pattern--1");
                            items_of (node "attack-pattern" "attack-pattern--2")]))
            world_seen) as H.
  { eexists. split; reflexivity. }
  eexists _, _. split; [apply holds_collection, H |]. split; [done |]. split; [| done].
  intros [Hlist _]. vm_compute in Hlist. lia.
Qed.

(** C3, amended.  A collection property that returns either found the list
    the object holds, and then made nothing, or the object held none, and
    then the list and all its entities were made by this access; either way
    every later access on that object answers that very list and makes
    nothing. *)
Theorem collection_built_once
    (w : World) (k : Kind) (self : nat) (l : PyList) (w' : World) (ops : list Op) :
  collection k self w = (inr l, w') ->
  (holds k self l w /\ next_oid w' = next_oid w \/
   ~ holds k self l w /\ list_oid l = next_oid w /\
   Forall (fun e => next_oid w < oid e < next_oid w') (elements l)) /\
  exists w'', collection k self (run ops w') = (inr l, w'') /\
              next_oid w'' = next_oid (run ops w').
Proof.
  intros H. split; [| by apply collection_again, (collection_holds k self w)].
  destruct (collection_returns _ _ _ _ _ H)
    as [[Hh ->] | (o & n' & Ho & Hn & Ef & Hl & En)]; [by left |].
  right. split; [| split; [done |]].
  - intros (o' & Ho' & Hl'). congruence.
  - apply fill_sound in Ef as [_ Hall]. rewrite En.
    eapply Forall_impl; [exact Hall |]. simpl. intros e (_ & _ & _ & _ & ?). lia.
Qed.

Lemma collection_built_once_witness :
  exists l w',
    collection Technique 0 world_loaded = (inr l, w') /\
    (holds Technique 0 l world_loaded /\ next_oid w' = next_oid world_loaded \/
     ~ holds Technique 0 l world_loaded /\ list_oid l = next_oid world_loaded /\
     Forall (fun e => next_oid world_loaded < oid e < next_oid w') (elements l)) /\
    exists w'', collection Technique 0 (run [Update 0; Get Malware 0] w') = (inr l, w'') /\
                next_oid w'' = next_oid (run [Update 0; Get Malware 0] w').
Proof.
  eexists _, _. split; [reflexivity |].
  apply (collection_built_once world_loaded Technique 0 _ _ [Update 0; Get Malware 0]).
  reflexivity.
Defined.

(** C4.  When [techniques] has returned a list, calling it again, whatever
    was done in between ([update()] included), returns the same list: the
    same entities, with the same ids and the same attribute values. *)
Theorem techniques_twice_same
    (w : World) (self : nat) (l : PyList) (w' : World) (ops : list Op) :
  techniques self w = (inr l, w') ->
  exists l' w'',
    techniques self (run ops w') = (inr l', w'') /\
    map internal_id (elements l') = map internal_id (elements l) /\
    map node_items (elements l') = map node_items (elements l) /\
    l' = l.
Proof.
  intros H.
  destruct (collection_again Technique self l w' ops (collection_holds _ _ _ _ _ H))
    as (w'' & E & _).
  exists l, w''. done.
Qed.

Lemma techniques_twice_same_witness :
  exists l w',
    techniques 0 world_loaded = (inr l, w') /\
    exists l' w'',
      techniques 0 (run [] w') = (inr l', w'') /\
      map internal_id (elements l') = map internal_id (elements l) /\
      map node_items (elements l') = map node_items (elements l) /\
      l' = l.
Proof.
  eexists _, _. split; [reflexivity |].
  apply (techniques_twice_same world_loaded 0 _ _ []). reflexivity.
Defined.

(** ** C5: the entities and their nodes *)

(** C5, as written, fails at the look-up by id: in a document where a
    technique and a malware carry one id, the technique entity has that id,
    and the node the index gives for it (the last one written) is the
    malware. *)
Lemma round_trip_counterexample :
  exists l w' e,
    techniques 0 world_duplicate_id = (inr l, w') /\
    e ∈ elements l /\
    kind e = Technique /\
    internal_id e = Some "x--1" /\
    nodeById (ENTERPRISE_ATTCK_JSON w') "x--1" = Some (node "malware" "x--1") /\
    ~ round_trip w' e.
Proof.
  eexists _, _, (mkEntity 1 Technique doc_duplicate_id (items_of (node "attack-pattern" "x--1"))).
  split; [reflexivity |]. split; [apply list_elem_of_here |].
  split; [reflexivity |]. split; [reflexivity |]. split; [reflexivity |].
  intros (i & g & Hi & Hn & Ht).
  vm_compute in Hi. injection Hi as <-.
  vm_compute in Hn. injection Hn as <-.
  vm_compute in Ht. discriminate.
Qed.

(** C5, amended.  In a process that has run any operations, an entity a
    collection property returns has the kind of the property, its node
    declares the tag of that kind and is a node of the loaded document; when
    the entity has an id and every node of the document with that id has the
    declared type of the entity, the look-up of the id gives a node of the
    kind of the entity; and no run of operations changes the loaded document
    or the list the object holds. *)
Theorem entities_view_nodes_of_their_kind
    (w : World) (k : Kind) (self : nat) (l : PyList) (w' : World) (e : TypedEntity) :
  reachable w ->
  collection k self w = (inr l, w') ->
  e ∈ elements l ->
  kind e = k /\
  declared_type (raw_node e) = Some (type_tag (kind e)) /\
  attck_obj e = ENTERPRISE_ATTCK_JSON w' /\
  raw_node e ∈ nodes (ENTERPRISE_ATTCK_JSON w') /\
  (forall i, internal_id e = Some i ->
             id_has_one_type (ENTERPRISE_ATTCK_JSON w') i (type_tag (kind e)) = true ->
             round_trip w' e) /\
  (forall ops, ENTERPRISE_ATTCK_JSON (run ops w') = ENTERPRISE_ATTCK_JSON w' /\
               holds k self l (run ops w')).
Proof.
  intros Hr Hc He.
  pose proof (collection_holds _ _ _ _ _ Hc) as Hh.
  assert (sound w') as Hs.
  { replace w' with (step w (Get k self)) by (simpl; by rewrite Hc).
    by apply sound_step, sound_reachable. }
  destruct Hh as (o & Ho & Hl).
  destruct (Hs self o k l e Ho Hl He) as (Hk & Ha & Ht & Hin & _).
  split; [exact Hk |]. split; [by rewrite Hk |]. split; [exact Ha |].
  split; [exact Hin |]. split.
  - intros i Hi Hone. unfold round_trip, nodeById.
    destruct (nodeById_agree i (type_tag (kind e)) (nodes (ENTERPRISE_ATTCK_JSON w')) Hone None)
      as (g & Hg & Hty).
    + left. exists (raw_node e). split; [exact Hin |].
      unfold has_id. by apply bool_decide_eq_true.
    + exists i, g. done.
  - intros ops. split.
    + apply (run_settled ops w'). by apply nodes_truthy with (raw_node e).
    + apply holds_run. by exists o.
Qed.

Lemma entities_view_nodes_of_their_kind_witness :
  reachable world_loaded /\
  exists l w' e,
    collection Technique 0 world_loaded = (inr l, w') /\
    e ∈ elements l /\
    kind e = Technique /\
    declared_type (raw_node e) = Some (type_tag (kind e)) /\
    raw_node e ∈ nodes (ENTERPRISE_ATTCK_JSON w') /\
    round_trip w' e.
Proof.
  assert (reachable world_loaded) as Hr by (by exists ∅, [New default_args sample_datasets]).
  split; [exact Hr |].
  eexists _, _,
    (mkEntity 1 Technique doc_plain (items_of (node "attack-pattern" "attack-pattern--1"))).
  split; [reflexivity |]. split; [apply list_elem_of_here |].
  destruct (entities_view_nodes_of_their_kind world_loaded Technique 0 _ _ _
              Hr eq_refl (list_elem_of_here _ _)) as (H1 & H2 & _ & H4 & H5 & _).
  split; [exact H1 |]. split; [exact H2 |]. split; [exact H4 |].
  apply (H5 "attack-pattern--1"); reflexivity.
Defined.

(** ** C2: what a collection property lists *)

(** In a process run from its start with providers that answer graph
    documents only (or raise), every collection property of every object
    returns a whole list, whether it makes it or finds it. *)
Lemma whole_lists_in_clean_runs
    (cfg : gmap string string) (ops : list Op) (k : Kind) (self : nat) :
  forallb wf_op ops = true ->
  is_Some (objects (run ops (initial cfg)) !! self) ->
  exists l w',
    collection k self (run ops (initial cfg)) = (inr l, w') /\
    wf_document (ENTERPRISE_ATTCK_JSON (run ops (initial cfg))) = true /\
    ENTERPRISE_ATTCK_JSON w' = ENTERPRISE_ATTCK_JSON (run ops (initial cfg)) /\
    map raw_node (elements l) = nodes_of_type k (ENTERPRISE_ATTCK_JSON (run ops (initial cfg))) /\
    Forall (fun e => kind e = k /\
                     attck_obj e = ENTERPRISE_ATTCK_JSON (run ops (initial cfg)))
           (elements l) /\
    NoDup (map oid (elements l)).
Proof.
  intros Hops [o Ho].
  pose proof (complete_run ops (initial cfg) Hops (complete_initial cfg)) as [Hdoc Hlists].
  set (w := run ops (initial cfg)) in *.
  destruct Hdoc as [[_ Hemp] | Hwf]; [by rewrite Hemp in Ho |].
  destruct (get_attr k o) as [l |] eqn:Hl.
  - exists l, (warned k w). split; [by apply collection_cached with o |].
    split; [exact Hwf |]. split; [done |].
    destruct (Hlists self o k l Ho Hl) as [n ->]. by apply views_whole.
  - rewrite (collection_fresh _ _ _ _ Ho Hl), (fill_wf _ _ _ Hwf).
    eexists _, _. split; [reflexivity |]. split; [exact Hwf |]. split; [done |].
    simpl. by apply views_whole.
Qed.






(** ** C10: [config_path] *)

(** C10.  The attribute the constructor assigns on [Configuration] is
    [_Attck__CONFIG_FILE]; the attribute [_Configuration__CONFIG_FILE], which
    is what [__CONFIG_FILE] names inside [Configuration], and every other
    attribute are after the constructor what they were before, whatever
    [config_path] is. *)
Theorem config_path_sets_mangled_attribute (w : World) (a : InitArgs) (ds : AttckDatasets) :
  mangle "Attck" "__CONFIG_FILE" = "_Attck__CONFIG_FILE" /\
  mangle "Configuration" "__CONFIG_FILE" = "_Configuration__CONFIG_FILE" /\
  Configuration_attrs (snd (Attck a ds w)) !! mangle "Configuration" "__CONFIG_FILE"
  = Configuration_attrs w !! mangle "Configuration" "__CONFIG_FILE" /\
  delete "_Attck__CONFIG_FILE" (Configuration_attrs (snd (Attck a ds w)))
  = delete "_Attck__CONFIG_FILE" (Configuration_attrs w) /\
  Configuration_attrs (snd (Attck a ds w)) !! "_Attck__CONFIG_FILE"
  = match arg_config_path a with
    | Some p => if truthy_arg (Some p) then Some p
                else Configuration_attrs w !! "_Attck__CONFIG_FILE"
    | None => Configuration_attrs w !! "_Attck__CONFIG_FILE"
    end.
Proof.
  split; [reflexivity |]. split; [reflexivity |].
  destruct (step_new_facts w a ds) as (_ & _ & Hc & _). simpl in Hc. rewrite Hc.
  change (mangle "Configuration" "__CONFIG_FILE") with "_Configuration__CONFIG_FILE".
  unfold config_after, assign_CONFIG_FILE.
  change (mangle "Attck" "__CONFIG_FILE") with "_Attck__CONFIG_FILE".
  destruct (arg_config_path a) as [p |]; [| done].
  destruct (truthy_arg (Some p)); [| done].
  split; [by rewrite lookup_insert_ne |].
  split; [by rewrite delete_insert_eq | by rewrite lookup_insert_eq].
Qed.

(** * Further properties of the class *)

(** ** The collection properties *)

(** X1.  Whatever a collection property answers, the events it adds are the one
    deprecation warning of its kind. *)
Theorem collection_warns_once (k : Kind) (self : nat) (w : World) :
  events (snd (collection k self w)) = events w ++ [Warn k].
Proof.
  destruct (objects w !! self) as [o |] eqn:Ho.
  - destruct (get_attr k o) as [l |] eqn:Hl.
    + by rewrite (collection_cached _ _ _ _ _ Ho Hl).
    + rewrite (collection_fresh _ _ _ _ Ho Hl).
      by destruct (fill _ _ _) as [[st n'] acc].
  - by rewrite collection_dead.
Qed.

(** X2.  Whatever a collection property answers, it leaves both class-level
    documents, the attributes of [Configuration] and the number of objects
    as they were. *)
Theorem collection_keeps_documents (k : Kind) (self : nat) (w : World) :
  ENTERPRISE_ATTCK_JSON (snd (collection k self w)) = ENTERPRISE_ATTCK_JSON w /\
  ENTERPRISE_GENERATED_DATA_JSON (snd (collection k self w))
  = ENTERPRISE_GENERATED_DATA_JSON w /\
  Configuration_attrs (snd (collection k self w)) = Configuration_attrs w /\
  length (objects (snd (collection k self w))) = length (objects w).
Proof. destruct (collection_quiet k self w) as (H1 & H2 & H3 & _ & H5). auto. Qed.

(** What a collection property leaves, whatever it answers: the state with
    the warning, or that state with a list put under its kind on its
    object. *)
Lemma collection_state k self w :
  snd (collection k self w) = warned k w \/
  exists o l n,
    objects w !! self = Some o /\ get_attr k o = None /\
    snd (collection k self w) = put o k self l n (warned k w).
Proof.
  destruct (objects w !! self) as [o |] eqn:Ho.
  - destruct (get_attr k o) as [l |] eqn:Hl.
    + left. by rewrite (collection_cached _ _ _ _ _ Ho Hl).
    + right. rewrite (collection_fresh _ _ _ _ Ho Hl).
      destruct (fill _ _ _) as [[st n'] acc].
      exists o, (mkPyList (next_oid w) acc), n'. done.
  - left. by rewrite collection_dead.
Qed.

(** X3.  A collection property changes at most the list of its own kind on its
    own object: what any object holds for another kind, and what another
    object holds for any kind, is after the access what it was before. *)
Theorem collection_leaves_other_lists
    (k : Kind) (self : nat) (w : World) (k' : Kind) (self' : nat) (l : PyList) :
  (self', k') <> (self, k) ->
  holds k' self' l (snd (collection k self w)) <-> holds k' self' l w.
Proof.
  intros Hne.
  destruct (collection_state k self w) as [E | (o & L & n & Ho & Hn & E)]; rewrite E.
  - done.
  - unfold holds. simpl. destruct (decide (self' = self)) as [-> | Hs].
    + assert (k <> k') as Hk by congruence.
      rewrite list_lookup_insert_eq by (by eapply lookup_lt_Some). split.
      * intros (o' & Eo & Hl). injection Eo as <-.
        rewrite get_set_attr_other in Hl by done. eauto.
      * intros (o' & Eo & Hl). assert (o' = o) as -> by congruence.
        eexists. split; [reflexivity |]. by rewrite get_set_attr_other.
    + rewrite list_lookup_insert_ne by congruence. done.
Qed.

Lemma collection_leaves_other_lists_witness :
  (0, Malware) <> (0, Technique) /\
  (holds Malware 0 (mkPyList 3 (views Malware doc_plain 4
                                  [items_of (node "malware" "malware--1")]))
         (snd (collection Technique 0 world_two))
   <-> holds Malware 0 (mkPyList 3 (views Malware doc_plain 4
                                      [items_of (node "malware" "malware--1")]))
             world_two).
Proof.
  assert ((0, Malware) <> (0, Technique)) as H by discriminate.
  split; [exact H |].
  apply (collection_leaves_other_lists Technique 0 world_two Malware 0 _ H).
Defined.

(** X4.  When a collection property raises on an object, the list it had begun
    stays on the object, and every later access of the property on that
    object returns this list instead of raising. *)
Theorem failed_access_leaves_its_list
    (k : Kind) (self : nat) (w : World) (e : exn) (w' : World) :
  collection k self w = (inl e, w') ->
  is_Some (objects w !! self) ->
  exists l,
    list_oid l = next_oid w /\
    holds k self l w' /\
    forall ops, fst (collection k self (run ops w')) = inr l.
Proof.
  intros H [o Ho]. destruct (get_attr k o) as [l0 |] eqn:Hl.
  { by rewrite (collection_cached _ _ _ _ _ Ho Hl) in H. }
  rewrite (collection_fresh _ _ _ _ Ho Hl) in H.
  destruct (fill _ _ _) as [[st n'] acc]. destruct st as [e' |]; [| done].
  injection H as _ <-.
  assert (holds k self (mkPyList (next_oid w) acc)
            (put o k self (mkPyList (next_oid w) acc) n' (warned k w))) as Hh.
  { eexists. split; [by apply put_lookup |]. by rewrite get_set_attr_same. }
  exists (mkPyList (next_oid w) acc). split; [done |]. split; [exact Hh |].
  intros ops. by rewrite (holds_collection _ _ _ _ (holds_run _ _ _ ops _ Hh)).
Qed.

Lemma failed_access_leaves_its_list_witness :
  exists e w',
    collection Technique 0 world_broken = (inl e, w') /\
    is_Some (objects world_broken !! 0) /\
    exists l,
      list_oid l = next_oid world_broken /\
      holds Technique 0 l w' /\
      forall ops, fst (collection Technique 0 (run ops w')) = inr l.
Proof.
  assert (is_Some (objects world_broken !! 0)) as Ho by (eexists; reflexivity).
  eexists _, _. split; [reflexivity |]. split; [exact Ho |].
  apply (failed_access_leaves_its_list Technique 0 world_broken _ _ eq_refl Ho).
Defined.

(** The loop over raw nodes followed by anything: the raw nodes are viewed,
    and the loop goes on from there. *)
Lemma scan_app_wf k doc pre rest :
  forallb wf_node pre = true ->
  forall n acc,
    scan k doc (pre ++ rest) n acc
    = scan k doc rest (n + length (List.filter (has_type (type_tag k)) pre))
           (acc ++ views k doc n (map items_of (List.filter (has_type (type_tag k)) pre))).
Proof.
  induction pre as [| g pre IH]; intros H n acc; simpl in *.
  - by rewrite Nat.add_0_r, app_nil_r.
  - apply andb_true_iff in H as [Hg Hpre].
    destruct g as [| ? | ? | ? | ? | items]; try discriminate. simpl in Hg.
    destruct (dict_get "type" items) as [t |] eqn:Et; [| discriminate].
    destruct (dict_get "attck_obj" items) eqn:Ea; [discriminate |].
    assert (subscript (JObj items) "type" = inr t) as Es by (simpl; by rewrite Et).
    simpl. rewrite Et. rewrite (eq_str_has_type _ _ _ Es).
    destruct (has_type (type_tag k) (JObj items)); simpl.
    + rewrite IH by done. rewrite <- app_assoc. simpl. do 2 f_equal. lia.
    + by apply IH.
Qed.

(** X5.  A node without [type] anywhere in the document makes the first access of
    every collection property raise [KeyError], whatever the kind; the
    object is left with the entities of the nodes of the kind that come
    before that node. *)
Theorem node_without_type_breaks_collection
    (k : Kind) (self : nat) (w : World) (o : Instance)
    (items bad : list (string * json)) (pre post : list json) :
  objects w !! self = Some o ->
  get_attr k o = None ->
  ENTERPRISE_ATTCK_JSON w = JObj items ->
  dict_get "objects" items = Some (JArr (pre ++ JObj bad :: post)) ->
  forallb wf_node pre = true ->
  dict_get "type" bad = None ->
  exists l w',
    collection k self w = (inl (KeyError "type"), w') /\
    holds k self l w' /\
    map raw_node (elements l) = List.filter (has_type (type_tag k)) pre.
Proof.
  intros Ho Hn Hd Hobj Hpre Hbad.
  rewrite (collection_fresh _ _ _ _ Ho Hn). unfold fill. rewrite Hd. simpl.
  rewrite Hobj. simpl. rewrite (scan_app_wf _ _ _ _ Hpre). simpl. rewrite Hbad.
  eexists _, _. split; [reflexivity |]. split.
  - eexists. split; [by apply put_lookup |]. by rewrite get_set_attr_same.
  - simpl. apply views_raw_node. by apply forallb_filter.
Qed.

Lemma node_without_type_breaks_collection_witness :
  exists l w',
    collection Tool 0 world_broken = (inl (KeyError "type"), w') /\
    holds Tool 0 l w' /\
    map raw_node (elements l)
    = List.filter (has_type (type_tag Tool))
        [node "attack-pattern" "attack-pattern--1"; node "malware" "malware--1"].
Proof.
  apply (node_without_type_breaks_collection Tool 0 world_broken
           (fresh_object default_args datasets_broken)
           [("type", JStr "bundle");
            ("objects", JArr [node "attack-pattern" "attack-pattern--1";
                              node "malware" "malware--1";
                              JObj [("id", JStr "relationship--1")];
                              node "attack-pattern" "attack-pattern--2"])]
           [("id", JStr "relationship--1")]
           [node "attack-pattern" "attack-pattern--1"; node "malware" "malware--1"]
           [node "attack-pattern" "attack-pattern--2"]); reflexivity.
Defined.

(** X6.  When [objects] is there but is no list: an empty mapping or an empty
    string gives an empty list; anything else makes the first access raise
    [TypeError]. *)
Theorem objects_not_a_list
    (k : Kind) (self : nat) (w : World) (o : Instance) (v : json) :
  objects w !! self = Some o ->
  get_attr k o = None ->
  subscript (ENTERPRISE_ATTCK_JSON w) "objects" = inr v ->
  (forall xs, v <> JArr xs) ->
  match v with
  | JObj [] | JStr EmptyString =>
      fst (collection k self w) = inr (mkPyList (next_oid w) [])
  | _ => exists msg, fst (collection k self w) = inl (TypeError msg)
  end.
Proof.
  intros Ho Hn Hv Hlist.
  rewrite (collection_fresh _ _ _ _ Ho Hn). unfold fill. rewrite Hv.
  destruct v as [| b | z | s | xs | kvs]; simpl; eauto.
  - destruct s as [| c s]; simpl; eauto.
  - by destruct (Hlist xs).
  - destruct kvs as [| [key x] kvs]; simpl; eauto.
Qed.

Lemma objects_not_a_list_witness :
  exists msg, fst (collection Technique 0 world_objects_mapping) = inl (TypeError msg).
Proof.
  apply (objects_not_a_list Technique 0 world_objects_mapping
           (fresh_object default_args datasets_objects_mapping)
           (JObj [("attack-pattern--1", node "attack-pattern" "attack-pattern--1")]));
    [reflexivity | reflexivity | reflexivity | intros xs; discriminate].
Defined.

(** ** [update] and the constructor *)

(** X7.  When neither document is loaded and the provider of the object answers
    both, [update()] asks for the graph document and then for the generated
    data, each with the force flag set, and stores the two answers; the
    objects are left as they were. *)
Theorem update_loads_when_nothing_is_loaded
    (self : nat) (w : World) (o : Instance) (d g : json) :
  objects w !! self = Some o ->
  truthy (ENTERPRISE_ATTCK_JSON w) = false ->
  truthy (ENTERPRISE_GENERATED_DATA_JSON w) = false ->
  mitre (datasets o) true (if subtechniques o then Some true else None) = inr d ->
  generated_attck_data (datasets o) true = inr g ->
  exists w',
    update self w = (inr tt, w') /\
    ENTERPRISE_ATTCK_JSON w' = d /\
    ENTERPRISE_GENERATED_DATA_JSON w' = g /\
    events w' = events w ++ [CallMitre true (if subtechniques o then Some true else None);
                             CallGenerated true] /\
    objects w' = objects w.
Proof.
  intros Ho Hd Hg Hm Hgen. unfold update. rewrite (load_data_eq _ _ _ _ Ho).
  unfold load, fetch_graph, fetch_generated, bind. rewrite Hd, Hm. simpl.
  rewrite Hg, Hgen. simpl. eexists. split; [reflexivity |]. simpl.
  by rewrite <- app_assoc.
Qed.

Lemma update_loads_when_nothing_is_loaded_witness :
  exists w',
    update 0 world_late = (inr tt, w') /\
    ENTERPRISE_ATTCK_JSON w' = doc_plain /\
    ENTERPRISE_GENERATED_DATA_JSON w' = doc_generated /\
    events w' = events world_late
                ++ [CallMitre true
                      (if subtechniques (fresh_object default_args datasets_late)
                       then Some true else None);
                    CallGenerated true] /\
    objects w' = objects world_late.
Proof.
  apply (update_loads_when_nothing_is_loaded 0 world_late
           (fresh_object default_args datasets_late) doc_plain doc_generated);
    reflexivity.
Defined.

(** X8.  Whatever the state, [update()] leaves the objects with their lists, the
    attributes of [Configuration] and the identities alone, never replaces a
    document that is loaded, and puts the force flag on every request it
    makes. *)
Theorem update_touches_documents_only (self : nat) (w : World) :
  objects (snd (update self w)) = objects w /\
  Configuration_attrs (snd (update self w)) = Configuration_attrs w /\
  next_oid (snd (update self w)) = next_oid w /\
  settled w (snd (update self w)) /\
  exists added,
    events (snd (update self w)) = events w ++ added /\
    Forall (fun e => is_fetch e = true /\ forced e = true) added.
Proof.
  destruct (step_update_facts w self) as (H1 & H2 & H3 & H4). simpl in *.
  split; [exact H1 |]. split; [exact H3 |]. split; [exact H2 |]. split; [exact H4 |].
  destruct (step_update w self) as [E | (o & Ho & E)]; simpl in E; rewrite E.
  - exists []. split; [by rewrite app_nil_r | constructor].
  - exists (load_requests (subtechniques o) (datasets o) true w).
    split; [apply load_events |].
    eapply Forall_impl; [apply load_requests_flag |]. by intros e [? ?].
Qed.

(** X9.  When the graph document is fetched and the generated data cannot be
    had, the constructor raises what the provider raised, but the graph
    document stays loaded: the next constructor, whatever its arguments and
    its provider, asks for the generated data only. *)
Theorem graph_document_survives_failed_generated_data
    (w : World) (a : InitArgs) (ds : AttckDatasets) (d : json) (e : exn) :
  truthy (ENTERPRISE_ATTCK_JSON w) = false ->
  truthy (ENTERPRISE_GENERATED_DATA_JSON w) = false ->
  mitre ds false (if arg_subtechniques a then Some true else None) = inr d ->
  truthy d = true ->
  generated_attck_data ds false = inl e ->
  exists w',
    Attck a ds w = (inl e, w') /\
    ENTERPRISE_ATTCK_JSON w' = d /\
    ENTERPRISE_GENERATED_DATA_JSON w' = ENTERPRISE_GENERATED_DATA_JSON w /\
    forall a2 ds2,
      events (snd (Attck a2 ds2 w')) = events w' ++ config_events a2 ++ [CallGenerated false].
Proof.
  intros Hd Hg Hm Ht Hgen. rewrite Attck_eq.
  unfold load, fetch_graph, fetch_generated, bind. simpl. rewrite Hd, Hm. simpl.
  rewrite Hg, Hgen. simpl. eexists. split; [reflexivity |]. simpl.
  split; [done |]. split; [done |]. intros a2 ds2.
  rewrite Attck_events. unfold load_requests. simpl. by rewrite Ht, Hg.
Qed.

Lemma graph_document_survives_failed_generated_data_witness :
  exists w',
    Attck default_args datasets_half (initial ∅) = (inl (ProviderError "generated data"), w') /\
    ENTERPRISE_ATTCK_JSON w' = doc_plain /\
    ENTERPRISE_GENERATED_DATA_JSON w' = ENTERPRISE_GENERATED_DATA_JSON (initial ∅) /\
    forall a2 ds2,
      events (snd (Attck a2 ds2 w')) = events w' ++ config_events a2 ++ [CallGenerated false].
Proof.
  apply (graph_document_survives_failed_generated_data (initial ∅) default_args
           datasets_half doc_plain (ProviderError "generated data")); reflexivity.
Defined.

(** X10.  When the fetch of the graph document raises, the constructor raises the
    same, the generated data is not asked for, and both documents are what
    they were. *)
Theorem failed_graph_fetch_stops_the_load
    (w : World) (a : InitArgs) (ds : AttckDatasets) (e : exn) :
  truthy (ENTERPRISE_ATTCK_JSON w) = false ->
  mitre ds false (if arg_subtechniques a then Some true else None) = inl e ->
  exists w',
    Attck a ds w = (inl e, w') /\
    ENTERPRISE_ATTCK_JSON w' = ENTERPRISE_ATTCK_JSON w /\
    ENTERPRISE_GENERATED_DATA_JSON w' = ENTERPRISE_GENERATED_DATA_JSON w /\
    events w' = events w ++ config_events a
                ++ [CallMitre false (if arg_subtechniques a then Some true else None)].
Proof.
  intros Hd Hm. rewrite Attck_eq.
  unfold load, fetch_graph, fetch_generated, bind. simpl. rewrite Hd, Hm. simpl.
  eexists. split; [reflexivity |]. simpl. by rewrite <- app_assoc.
Qed.

Lemma failed_graph_fetch_stops_the_load_witness :
  exists w',
    Attck args_subtechniques datasets_down (initial ∅) = (inl (ProviderError "mitre"), w') /\
    ENTERPRISE_ATTCK_JSON w' = ENTERPRISE_ATTCK_JSON (initial ∅) /\
    ENTERPRISE_GENERATED_DATA_JSON w' = ENTERPRISE_GENERATED_DATA_JSON (initial ∅) /\
    events w' = events (initial ∅) ++ config_events args_subtechniques
                ++ [CallMitre false (if arg_subtechniques args_subtechniques
                                     then Some true else None)].
Proof.
  apply (failed_graph_fetch_stops_the_load (initial ∅) args_subtechniques datasets_down
           (ProviderError "mitre")); reflexivity.
Defined.

(** X11.  A constructor that returns has added exactly one object, at the address
    it returns: the object has the [subtechniques] it was given, the
    provider, and no list; the objects that were there and the identities
    are untouched, and the graph document is the one that was loaded or else
    the answer of the provider. *)
Theorem constructor_adds_one_object
    (w : World) (a : InitArgs) (ds : AttckDatasets) (n : nat) (w' : World) :
  Attck a ds w = (inr n, w') ->
  n = length (objects w) /\
  objects w' = objects w ++ [mkInstance (arg_subtechniques a) ds None None None None None None] /\
  next_oid w' = next_oid w /\
  (ENTERPRISE_ATTCK_JSON w' = ENTERPRISE_ATTCK_JSON w \/
   truthy (ENTERPRISE_ATTCK_JSON w) = false /\
   mitre ds false (if arg_subtechniques a then Some true else None)
   = inr (ENTERPRISE_ATTCK_JSON w')).
Proof.
  intros H.
  pose proof (load_objects (arg_subtechniques a) ds false (begun a ds w)) as (Ho & Hn & _).
  pose proof (load_doc (arg_subtechniques a) ds false (begun a ds w)) as Hd.
  rewrite Attck_eq in H.
  destruct (load _ _ _ _) as [[e | u] w1]; [done |]. injection H as <- <-.
  simpl in *. auto.
Qed.

Lemma constructor_adds_one_object_witness :
  exists n w',
    Attck args_subtechniques sample_datasets world_loaded = (inr n, w') /\
    n = length (objects world_loaded) /\
    objects w' = objects world_loaded
                 ++ [mkInstance (arg_subtechniques args_subtechniques) sample_datasets
                       None None None None None None] /\
    next_oid w' = next_oid world_loaded.
Proof.
  eexists _, _. split; [reflexivity |].
  destruct (constructor_adds_one_object world_loaded args_subtechniques sample_datasets _ _
              eq_refl) as (H1 & H2 & H3 & _).
  split; [exact H1 |]. split; [exact H2 | exact H3].
Defined.

(** X12.  The constructor configures before it loads: the call of
    [Configuration().set] with the two paths (made when one of them is a
    non-empty string), then the call without arguments (made when [force] is
    set), then at most two requests to the provider, each with the force
    flag down. *)
Theorem constructor_configures_then_loads (w : World) (a : InitArgs) (ds : AttckDatasets) :
  exists requests,
    events (snd (Attck a ds w))
    = events w
      ++ (if truthy_arg (arg_attck_json a) || truthy_arg (arg_dataset_json a)
          then [CallConfigurationSet (arg_attck_json a) (arg_dataset_json a)] else [])
      ++ (if arg_force a then [CallConfigurationSetDefaults] else [])
      ++ requests /\
    Forall (fun e => is_fetch e = true /\ forced e = false) requests /\
    length requests <= 2.
Proof.
  exists (load_requests (arg_subtechniques a) ds false w).
  split; [| split].
  - rewrite Attck_events. unfold config_events. by rewrite <- app_assoc.
  - eapply Forall_impl; [apply load_requests_flag |]. by intros e [? ?].
  - unfold load_requests.
    destruct (truthy (ENTERPRISE_ATTCK_JSON w)).
    + destruct (truthy (ENTERPRISE_GENERATED_DATA_JSON w)); simpl; lia.
    + destruct (mitre ds false _); simpl; [lia |].
      destruct (truthy (ENTERPRISE_GENERATED_DATA_JSON w)); simpl; lia.
Qed.

(** ** Kinds and identities *)

Lemma type_tag_inj k1 k2 : type_tag k1 = type_tag k2 -> k1 = k2.
Proof. destruct k1, k2; simpl; intros H; try reflexivity; discriminate. Qed.

(** X13.  In a process that has run any operations, no node is listed under two
    kinds: two entities, held by any objects, that view the same node have
    the same kind. *)
Theorem no_node_under_two_kinds
    (w : World) (k1 k2 : Kind) (self1 self2 : nat) (l1 l2 : PyList) (e1 e2 : TypedEntity) :
  reachable w ->
  holds k1 self1 l1 w -> holds k2 self2 l2 w ->
  e1 ∈ elements l1 -> e2 ∈ elements l2 ->
  raw_node e1 = raw_node e2 ->
  k1 = k2 /\ kind e1 = kind e2.
Proof.
  intros Hr (o1 & Ho1 & Hl1) (o2 & Ho2 & Hl2) He1 He2 Heq.
  pose proof (sound_reachable w Hr) as Hs.
  destruct (Hs _ _ _ _ _ Ho1 Hl1 He1) as (Hk1 & _ & Ht1 & _).
  destruct (Hs _ _ _ _ _ Ho2 Hl2 He2) as (Hk2 & _ & Ht2 & _).
  rewrite Heq in Ht1. rewrite Ht1 in Ht2. injection Ht2 as Ht.
  apply type_tag_inj in Ht. subst. done.
Qed.

Lemma no_node_under_two_kinds_witness :
  Technique = Technique /\
  kind (mkEntity 1 Technique doc_plain (items_of (node "attack-pattern" "attack-pattern--1")))
  = kind (mkEntity 6 Technique doc_plain (items_of (node "attack-pattern" "attack-pattern--1"))).
Proof.
  apply (no_node_under_two_kinds world_two Technique Technique 0 1
           (mkPyList 0 (views Technique doc_plain 1
                          [items_of (node "attack-pattern" "attack-pattern--1");
                           items_of (node "attack-pattern" "attack-pattern--2")]))
           (mkPyList 5 (views Technique doc_plain 6
                          [items_of (node "attack-pattern" "attack-pattern--1");
                           items_of (node "attack-pattern" "attack-pattern--2")]))).
  - by exists ∅, [New default_args sample_datasets; New args_subtechniques sample_datasets;
                  Get Technique 0; Get Malware 0; Get Technique 1].
  - apply holds_lookup. vm_compute. reflexivity.
  - apply holds_lookup. vm_compute. reflexivity.
  - apply list_elem_of_here.
  - apply list_elem_of_here.
  - reflexivity.
Defined.

Lemma aged_step w op : aged w -> aged (step w op).
Proof.
  intros Ha self o k l Ho Hl.
  destruct (step_objects w op self o k l Ho Hl)
    as [(o0 & Ho0 & Hl0) | (o0 & st & n' & acc & -> & Ho0 & Hn & Ef & -> & En)].
  - eapply Nat.lt_le_trans; [by eapply Ha | apply step_next_oid].
  - apply fill_sound in Ef as [Hle _]. rewrite En. simpl. lia.
Qed.

(** The identities of a list that was held before an operation are older
    than the next identity of that time. *)
Lemma held_oids_old w k self l x :
  sound w -> aged w -> holds k self l w -> x ∈ oids l -> x < next_oid w.
Proof.
  intros Hs Ha (o & Ho & Hl) Hx. unfold oids in Hx.
  apply elem_of_cons in Hx as [-> | Hx]; [by eapply Ha |].
  apply list_elem_of_fmap in Hx as (e & -> & He).
  by destruct (Hs _ _ _ _ _ Ho Hl He) as (_ & _ & _ & _ & ?).
Qed.

(** The identities of a list a collection property has just made are not. *)
Lemma made_oids_new k doc n st n' acc y :
  fill k doc (S n) = (st, n', acc) -> y ∈ oids (mkPyList n acc) -> n <= y.
Proof.
  intros Ef Hy. unfold oids in Hy. simpl in Hy.
  apply elem_of_cons in Hy as [-> | Hy]; [lia |].
  apply list_elem_of_fmap in Hy as (e & -> & He).
  apply fill_sound in Ef as [_ Hall]. rewrite Forall_forall in Hall.
  destruct (Hall e He) as (_ & _ & _ & _ & ?). lia.
Qed.

Lemma apart_step w op : sound w -> aged w -> apart w -> apart (step w op).
Proof.
  intros Hs Ha Hp self1 k1 l1 self2 k2 l2 (o1 & Ho1 & Hl1) (o2 & Ho2 & Hl2) Hne x y Hx Hy.
  destruct (step_objects w op self1 o1 k1 l1 Ho1 Hl1)
    as [(p1 & Hp1 & Hq1) | (p1 & st1 & n1 & acc1 & E1 & Hp1 & Hn1 & Ef1 & -> & _)];
  destruct (step_objects w op self2 o2 k2 l2 Ho2 Hl2)
    as [(p2 & Hp2 & Hq2) | (p2 & st2 & n2 & acc2 & E2 & Hp2 & Hn2 & Ef2 & -> & _)].
  - apply (Hp self1 k1 l1 self2 k2 l2); [by exists p1 | by exists p2 | done..].
  - assert (x < next_oid w) by (eapply held_oids_old; [done | done | by exists p1 | done]).
    pose proof (made_oids_new _ _ _ _ _ _ _ Ef2 Hy). lia.
  - assert (y < next_oid w) by (eapply held_oids_old; [done | done | by exists p2 | done]).
    pose proof (made_oids_new _ _ _ _ _ _ _ Ef1 Hx). lia.
  - congruence.
Qed.

Lemma aged_initial cfg : aged (initial cfg).
Proof. intros self o k l Ho. by destruct self. Qed.

Lemma apart_initial cfg : apart (initial cfg).
Proof. intros self1 k1 l1 self2 k2 l2 (o & Ho & _). by destruct self1. Qed.

Lemma apart_run ops w :
  sound w -> aged w -> apart w ->
  sound (run ops w) /\ aged (run ops w) /\ apart (run ops w).
Proof.
  revert w. induction ops as [| op ops IH]; intros w Hs Ha Hp; simpl; [done |].
  apply IH; [by apply sound_step | by apply aged_step | by apply apart_step].
Qed.

(** X14.  In a process that has run any operations, the lists held under
    different kinds or by different objects are different Python lists made
    of different Python objects: no identity of the one is an identity of
    the other. *)
Theorem lists_share_no_object
    (w : World) (k1 k2 : Kind) (self1 self2 : nat) (l1 l2 : PyList) (x y : nat) :
  reachable w ->
  holds k1 self1 l1 w -> holds k2 self2 l2 w ->
  (self1, k1) <> (self2, k2) ->
  x ∈ oids l1 -> y ∈ oids l2 ->
  x <> y.
Proof.
  intros (cfg & ops & ->) H1 H2 Hne Hx Hy.
  destruct (apart_run ops (initial cfg) (sound_initial cfg) (aged_initial cfg)
              (apart_initial cfg)) as (_ & _ & Hp).
  by apply (Hp self1 k1 l1 self2 k2 l2).
Qed.

Lemma lists_share_no_object_witness :
  holds Technique 0
        (mkPyList 0 (views Technique doc_plain 1
                       [items_of (node "attack-pattern" "attack-pattern--1");
                        items_of (node "attack-pattern" "attack-pattern--2")]))
        world_two /\
  holds Technique 1
        (mkPyList 5 (views Technique doc_plain 6
                       [items_of (node "attack-pattern" "attack-pattern--1");
                        items_of (node "attack-pattern" "attack-pattern--2")]))
        world_two /\
  1 <> 6.
Proof.
  assert (holds Technique 0
            (mkPyList 0 (views Technique doc_plain 1
                           [items_of (node "attack-pattern" "attack-pattern--1");
                            items_of (node "attack-pattern" "attack-pattern--2")]))
            world_two) as H1 by (apply holds_lookup; vm_compute; reflexivity).
  assert (holds Technique 1
            (mkPyList 5 (views Technique doc_plain 6
                           [items_of (node "attack-pattern" "attack-pattern--1");
                            items_of (node "attack-pattern" "attack-pattern--2")]))
            world_two) as H2 by (apply holds_lookup; vm_compute; reflexivity).
  split; [exact H1 |]. split; [exact H2 |].
  apply (lists_share_no_object world_two Technique Technique 0 1
           (mkPyList 0 (views Technique doc_plain 1
                          [items_of (node "attack-pattern" "attack-pattern--1");
                           items_of (node "attack-pattern" "attack-pattern--2")]))
           (mkPyList 5 (views Technique doc_plain 6
                          [items_of (node "attack-pattern" "attack-pattern--1");
                           items_of (node "attack-pattern" "attack-pattern--2")]))
           1 6).
  - by exists ∅, [New default_args sample_datasets; New args_subtechniques sample_datasets;
                  Get Technique 0; Get Malware 0; Get Technique 1].
  - exact H1.
  - exact H2.
  - discriminate.
  - apply list_elem_of_further, list_elem_of_here.
  - apply list_elem_of_further, list_elem_of_here.
Defined.

(** ** The [enterprise] property *)

Lemma enterprise_at self w o :
  objects w !! self = Some o ->
  enterprise self w
  = (inr (mkEnterprise (next_oid w) (ENTERPRISE_ATTCK_JSON w)),
     with_next_oid (S (next_oid w)) w).
Proof. intros Ho. unfold enterprise, bind. by rewrite (read_self_at _ _ _ Ho). Qed.

Lemma enterprise_alive self w :
  is_Some (objects w !! self) ->
  enterprise self w
  = (inr (mkEnterprise (next_oid w) (ENTERPRISE_ATTCK_JSON w)),
     with_next_oid (S (next_oid w)) w).
Proof. intros [o Ho]. by apply enterprise_at with o. Qed.

(** X15.  [enterprise] keeps nothing on the object: two accesses in a row return
    two different [Enterprise] objects, both around the class-level graph
    document; no warning is issued, and the objects and the documents are
    left as they were. *)
Theorem enterprise_is_built_each_time (self : nat) (w : World) :
  is_Some (objects w !! self) ->
  exists e1 w1 e2 w2,
    enterprise self w = (inr e1, w1) /\
    enterprise self w1 = (inr e2, w2) /\
    enterprise_oid e1 <> enterprise_oid e2 /\
    enterprise_json e1 = ENTERPRISE_ATTCK_JSON w /\
    enterprise_json e2 = ENTERPRISE_ATTCK_JSON w /\
    events w2 = events w /\
    objects w2 = objects w /\
    ENTERPRISE_ATTCK_JSON w2 = ENTERPRISE_ATTCK_JSON w.
Proof.
  intros [o Ho]. eexists _, _, _, _.
  split; [by apply enterprise_at with o |].
  split; [by apply enterprise_at with o |].
  simpl. repeat split; auto; lia.
Qed.

Lemma enterprise_is_built_each_time_witness :
  exists e1 w1 e2 w2,
    enterprise 0 world_seen = (inr e1, w1) /\
    enterprise 0 w1 = (inr e2, w2) /\
    enterprise_oid e1 <> enterprise_oid e2 /\
    enterprise_json e1 = ENTERPRISE_ATTCK_JSON world_seen /\
    enterprise_json e2 = ENTERPRISE_ATTCK_JSON world_seen /\
    events w2 = events world_seen /\
    objects w2 = objects world_seen /\
    ENTERPRISE_ATTCK_JSON w2 = ENTERPRISE_ATTCK_JSON world_seen.
Proof.
  apply (enterprise_is_built_each_time 0 world_seen).
  apply lookup_lt_is_Some. vm_compute. lia.
Defined.

(** X16.  In a process that has run any operations, the document [enterprise]
    hands over, on any object, is the document every entity held by any
    object was built on. *)
Theorem enterprise_has_the_document_of_the_entities
    (w : World) (self : nat) (en : Enterprise) (w' : World)
    (k : Kind) (holder : nat) (l : PyList) (e : TypedEntity) :
  reachable w ->
  enterprise self w = (inr en, w') ->
  holds k holder l w ->
  e ∈ elements l ->
  attck_obj e = enterprise_json en.
Proof.
  intros Hr He (o & Ho & Hl) Hin.
  destruct (sound_reachable w Hr _ _ _ _ _ Ho Hl Hin) as (_ & Ha & _).
  destruct (objects w !! self) as [o' |] eqn:Ho'.
  - rewrite (enterprise_at _ _ _ Ho') in He. injection He as <- _. exact Ha.
  - unfold enterprise, bind, read_self in He. by rewrite Ho' in He.
Qed.

Lemma enterprise_has_the_document_of_the_entities_witness :
  attck_obj (mkEntity 6 Technique doc_plain (items_of (node "attack-pattern" "attack-pattern--1")))
  = enterprise_json (mkEnterprise (next_oid world_two) (ENTERPRISE_ATTCK_JSON world_two)).
Proof.
  apply (enterprise_has_the_document_of_the_entities world_two 0 _
           (with_next_oid (S (next_oid world_two)) world_two) Technique 1
           (mkPyList 5 (views Technique doc_plain 6
                          [items_of (node "attack-pattern" "attack-pattern--1");
                           items_of (node "attack-pattern" "attack-pattern--2")]))).
  - by exists ∅, [New default_args sample_datasets; New args_subtechniques sample_datasets;
                  Get Technique 0; Get Malware 0; Get Technique 1].
  - apply enterprise_alive, lookup_lt_is_Some. vm_compute. lia.
  - apply holds_lookup. vm_compute. reflexivity.
  - apply list_elem_of_here.
Defined.

(** ** Whole lists *)

(** X17.  In a process run from its start with providers whose graph
    documents are all well formed (or that raise), every access of every
    collection property on every object, the first and the later ones,
    returns exactly one entity, a Python object of its own, for each node of
    the loaded document whose declared type is the tag of the property, in
    document order, and nothing else. *)
Theorem properties_whole_in_clean_runs
    (cfg : gmap string string) (ops : list Op) (self : nat)
    (k : Kind) (prop : nat -> M PyList) (tag : string) :
  In (k, prop, tag) properties ->
  forallb wf_op ops = true ->
  is_Some (objects (run ops (initial cfg)) !! self) ->
  exists l w',
    prop self (run ops (initial cfg)) = (inr l, w') /\
    map raw_node (elements l)
    = List.filter (has_type tag) (nodes (ENTERPRISE_ATTCK_JSON (run ops (initial cfg)))) /\
    Forall (fun e => kind e = k) (elements l) /\
    NoDup (map oid (elements l)).
Proof.
  intros Hin Hops Ho.
  destruct (whole_lists_in_clean_runs cfg ops k self Hops Ho)
    as (l & w' & Hc & _ & _ & Hn & Hk & Hd).
  exists l, w'. unfold nodes_of_type in Hn.
  assert (Forall (fun e => kind e = k) (elements l)) as Hk'.
  { eapply Forall_impl; [exact Hk |]. by intros e [? _]. }
  simpl in Hin.
  destruct Hin as [E | [E | [E | [E | [E | [E | []]]]]]];
    injection E as <- <- <-; exact (conj Hc (conj Hn (conj Hk' Hd))).
Qed.

Lemma properties_whole_in_clean_runs_witness :
  forallb wf_op [New default_args sample_datasets; New args_subtechniques sample_datasets;
                 Get Technique 1; Update 0] = true /\
  exists l w',
    techniques 1
      (run [New default_args sample_datasets; New args_subtechniques sample_datasets;
            Get Technique 1; Update 0] (initial ∅)) = (inr l, w') /\
    map raw_node (elements l)
    = [node "attack-pattern" "attack-pattern--1"; node "attack-pattern" "attack-pattern--2"] /\
    NoDup (map oid (elements l)).
Proof.
  split; [reflexivity |].
  destruct (properties_whole_in_clean_runs ∅
              [New default_args sample_datasets; New args_subtechniques sample_datasets;
               Get Technique 1; Update 0] 1 Technique techniques "attack-pattern")
    as (l & w' & Hc & Hn & _ & Hd).
  - do 1 right. left. reflexivity.
  - reflexivity.
  - apply lookup_lt_is_Some. vm_compute. lia.
  - exists l, w'. split; [exact Hc |]. split; [exact Hn | exact Hd].
Defined.
